(** * http-echo-server: the request-normalisation pipeline of [src/echo-handler.ts]

    A shallow embedding of [parseBody], [parseQuery], [parseHeaders],
    [createEchoResponse] and [handleRequest], together with models of the
    web-platform operations they call ([String.prototype.includes],
    [Headers.get], [parseInt], [URLSearchParams], [URL], property assignment
    on a plain object, [Request.text]).

    Conventions.
    - Text (body text, URLs, query keys and values) is a [string] holding the
      UTF-8 encoding of the JavaScript string; header names and values are
      byte strings (one byte per code unit, as [Headers] stores them).
    - [null] of a [T | null] field is [None]; [null] of an [unknown] value is
      the constructor [Null].
    - Exceptions and the one mutable object of the pipeline (the request's
      body stream) are threaded by the monad [Async]. *)

From Stdlib Require Import ZArith NArith Ascii String List Lia Bool DecimalString.
From stdpp Require Import base option list strings gmap.

Local Open Scope string_scope.
Local Open Scope Z_scope.

(** ** Strings *)

Module Str.

Definition of_list (l : list ascii) : string :=
  fold_right String EmptyString l.

Definition to_list (s : string) : list ascii := list_ascii_of_string s.

Definition code (c : ascii) : N := N_of_ascii c.

Definition isEmpty (s : string) : bool :=
  match s with EmptyString => true | String _ _ => false end.

(** [s.includes(sub)]: [sub] occurs somewhere in [s] (code-unit exact,
    case-sensitive). *)
Fixpoint includes (s sub : string) : bool :=
  String.prefix sub s ||
  match s with
  | EmptyString => false
  | String _ s' => includes s' sub
  end.

(** ASCII lower-casing, the "byte-lowercase" of the Fetch standard. *)
Definition lower_ascii (c : ascii) : ascii :=
  let n := code c in
  if ((65 <=? n) && (n <=? 90))%N then ascii_of_N (n + 32) else c.

Fixpoint lower (s : string) : string :=
  match s with
  | EmptyString => EmptyString
  | String c s' => String (lower_ascii c) (lower s')
  end.

Fixpoint join (sep : string) (l : list string) : string :=
  match l with
  | [] => ""
  | [x] => x
  | x :: rest => x ++ sep ++ join sep rest
  end.

(** Splits [s] at every occurrence of the byte [d]; the pieces are
    returned in order, empty pieces included. *)
Fixpoint split (d : ascii) (s : string) : list string :=
  match s with
  | EmptyString => [EmptyString]
  | String c s' =>
      if Ascii.eqb c d then EmptyString :: split d s'
      else match split d s' with
           | [] => [String c EmptyString]
           | p :: ps => String c p :: ps
           end
  end.

(** Splits [s] at the first occurrence of [d]: [None] when [d] does not
    occur, otherwise the text before and the text after it. *)
Fixpoint cut (d : ascii) (s : string) : option (string * string) :=
  match s with
  | EmptyString => None
  | String c s' =>
      if Ascii.eqb c d then Some (EmptyString, s')
      else match cut d s' with
           | Some (a, b) => Some (String c a, b)
           | None => None
           end
  end.

Fixpoint map (f : ascii -> ascii) (s : string) : string :=
  match s with
  | EmptyString => EmptyString
  | String c s' => String (f c) (map f s')
  end.

End Str.

(** ** Numbers and values *)

(** A JavaScript Number, an IEEE 754 double. [Int z] is the double whose
    value is the integer [z]; [Infinity negative] is one of the two
    infinities; [Dec m e] stands for a decimal fraction [m * 10^e] with
    [e < 0], which only the computing instance of [JSON.parse] produces.
    The sign of zero is not represented. *)
Inductive number : Type :=
| NaN
| Int (z : Z)
| Dec (m e : Z)
| Infinity (negative : bool).

#[local] Set Warnings "-register-all".

(** The values an [unknown] of the pipeline can hold: what [JSON.parse]
    produces, and the [Record<string, string>] built from a form body. *)
Inductive JSValue : Type :=
| Null
| Bool (b : bool)
| Num (n : number)
| Text (s : string)
| Arr (items : list JSValue)
| Obj (props : list (string * JSValue))
| Rec (fields : gmap string string).

(** ** Property assignment on a plain object used as a map

    [obj[key] = value] on an object created by [{}], with [value] a string.
    Every key creates or overwrites an own property, except ["__proto__"]:
    that assignment reaches the accessor inherited from [Object.prototype],
    whose setter ignores a value that is neither an object nor [null]. *)
Definition obj_set (key value : string) (obj : gmap string string)
  : gmap string string :=
  if String.eqb key "__proto__" then obj else <[key := value]> obj.

(** [for (const [key, value] of entries) obj[key] = value] *)
Definition obj_assign_all (entries : list (string * string))
  (obj : gmap string string) : gmap string string :=
  fold_left (fun o kv => obj_set (fst kv) (snd kv) o) entries obj.

(** ** [Headers]

    The header list as the transport delivered it, in order. [get] follows
    the Fetch standard: names match byte-case-insensitively and the values
    of all matching entries are joined by [", "]. *)

Definition Headers : Type := list (string * string).

Definition Headers_values (h : Headers) (name : string) : list string :=
  List.map snd
    (List.filter (fun nv => String.eqb (Str.lower (fst nv)) (Str.lower name)) h).

Definition Headers_get (h : Headers) (name : string) : option string :=
  match Headers_values h name with
  | [] => None
  | vs => Some (Str.join ", " vs)
  end.

(** [headers.forEach((value, key) => ...)] visits the sorted-and-combined
    list: one entry per lower-cased name with the joined value, except
    [set-cookie], whose entries are visited one by one. The callback of
    [parseHeaders] stores into an object, so only the last visit of each
    key matters and the sort order does not. *)
Definition Headers_entries (h : Headers) : list (string * string) :=
  List.map
    (fun nv =>
       let key := Str.lower (fst nv) in
       if String.eqb key "set-cookie" then (key, snd nv)
       else (key, Str.join ", " (Headers_values h key)))
    h.

(** ** [parseInt(string, 10)]

    ECMAScript [parseInt]: leading white space is skipped, one sign is
    read, then the longest run of decimal digits; anything after it is
    ignored. The result is the Number value of the integer read, that is
    the double nearest to it. No digit at all gives [NaN]. *)

(** The white-space code units below U+0100 (TAB, LF, VT, FF, CR, SP,
    NBSP); header values hold no others. *)
Definition isStrWhiteSpaceChar (c : ascii) : bool :=
  let n := Str.code c in
  (((9 <=? n) && (n <=? 13)) || (n =? 32) || (n =? 160))%N.

Fixpoint trimStart (s : string) : string :=
  match s with
  | String c s' => if isStrWhiteSpaceChar c then trimStart s' else s
  | EmptyString => s
  end.

Definition digitValue (c : ascii) : option Z :=
  let n := Str.code c in
  if ((48 <=? n) && (n <=? 57))%N then Some (Z.of_N n - 48) else None.

(** Reads the longest prefix of decimal digits of [s], most significant
    first; [acc] is the value read so far, [seen] whether a digit was
    read. *)
Fixpoint readDigits (s : string) (acc : Z) (seen : bool) : option Z :=
  match s with
  | String c s' =>
      match digitValue c with
      | Some d => readDigits s' (10 * acc + d) true
      | None => if seen then Some acc else None
      end
  | EmptyString => if seen then Some acc else None
  end.

(** The double nearest to the integer [z], ties going to the even
    significand: integers below [2^53] in absolute value are doubles;
    beyond, [z] is rounded to 53 significant bits, and to an infinity
    when the rounded value reaches [2^1024]. *)
Definition roundToDouble (z : Z) : number :=
  let a := Z.abs z in
  if a <? 2 ^ 53 then Int z
  else
    let e := Z.log2 a - 52 in
    let q := a / 2 ^ e in
    let r := a mod 2 ^ e in
    let half := 2 ^ (e - 1) in
    let q' := if (half <? r) || ((r =? half) && Z.odd q) then q + 1 else q in
    let v := q' * 2 ^ e in
    if 2 ^ 1024 <=? v then Infinity (z <? 0) else Int (Z.sgn z * v).

(** The sign of the numeral and the text after the sign character. *)
Definition splitSign (s : string) : Z * string :=
  match s with
  | String "-" rest => (-1, rest)
  | String "+" rest => (1, rest)
  | _ => (1, s)
  end.

Definition parseInt10 (input : string) : number :=
  let '(sign, S1) := splitSign (trimStart input) in
  match readDigits S1 0 false with
  | Some mathInt => roundToDouble (sign * mathInt)
  | None => NaN
  end.

(** ** [URLSearchParams]: the [application/x-www-form-urlencoded] parser
    of the URL standard *)

Definition hexValue (c : ascii) : option N :=
  let n := Str.code c in
  if ((48 <=? n) && (n <=? 57))%N then Some (n - 48)%N
  else if ((65 <=? n) && (n <=? 70))%N then Some (n - 55)%N
  else if ((97 <=? n) && (n <=? 102))%N then Some (n - 87)%N
  else None.

(** Percent-decoding of a byte sequence: [%XY] with two hex digits becomes
    the byte [0xXY]; a [%] not followed by two hex digits stays. *)
Fixpoint percentDecode (s : string) : string :=
  match s with
  | String c tail =>
      if Ascii.eqb c "%"%char then
        match tail with
        | String h (String l rest) =>
            match hexValue h, hexValue l with
            | Some a, Some b =>
                String (ascii_of_N (16 * a + b)) (percentDecode rest)
            | _, _ => String c (percentDecode tail)
            end
        | _ => String c (percentDecode tail)
        end
      else String c (percentDecode tail)
  | EmptyString => EmptyString
  end.

(** U+FFFD in UTF-8. *)
Definition REPLACEMENT : string :=
  String (ascii_of_N 239) (String (ascii_of_N 191) (String (ascii_of_N 189) "")).

(** First byte of a code point in the UTF-8 decoder: the text emitted at
    once, the number of continuation bytes needed, and the bounds of the
    next byte. *)
Definition utf8_lead (b : ascii) : string * nat * N * N :=
  let n := Str.code b in
  if (n <=? 127)%N then (String b "", O, 128, 191)%N
  else if ((194 <=? n) && (n <=? 223))%N then ("", 1%nat, 128, 191)%N
  else if ((224 <=? n) && (n <=? 239))%N then
    ("", 2%nat, if (n =? 224)%N then 160 else 128,
                if (n =? 237)%N then 159 else 191)%N
  else if ((240 <=? n) && (n <=? 244))%N then
    ("", 3%nat, if (n =? 240)%N then 144 else 128,
                if (n =? 244)%N then 143 else 191)%N
  else (REPLACEMENT, O, 128, 191)%N.

Definition utf8_start (b : ascii) : string * nat * string * N * N :=
  let '(out, n, lo, hi) := utf8_lead b in
  (out, n, match n with O => "" | S _ => String b "" end, lo, hi).

(** "UTF-8 decode without BOM" of the Encoding standard, on the UTF-8
    representation: well-formed sequences are kept, every ill-formed
    maximal subpart becomes U+FFFD. [needed] continuation bytes are still
    expected for the code point whose bytes so far are [pend]. *)
Fixpoint utf8_decode (s : string) (needed : nat) (pend : string) (lo hi : N)
  : string :=
  match s with
  | EmptyString => match needed with O => "" | S _ => REPLACEMENT end
  | String b rest =>
      match needed with
      | O =>
          let '(out, n, pend', lo', hi') := utf8_start b in
          out ++ utf8_decode rest n pend' lo' hi'
      | S n' =>
          if ((lo <=? Str.code b) && (Str.code b <=? hi))%N then
            match n' with
            | O => pend ++ String b (utf8_decode rest O "" 128%N 191%N)
            | S _ => utf8_decode rest n' (pend ++ String b "") 128%N 191%N
            end
          else
            let '(out, n, pend', lo', hi') := utf8_start b in
            REPLACEMENT ++ out ++ utf8_decode rest n pend' lo' hi'
      end
  end.

Definition utf8_decode_without_BOM (s : string) : string :=
  utf8_decode s O "" 128%N 191%N.

Definition plusToSpace (c : ascii) : ascii :=
  if Ascii.eqb c "+"%char then " "%char else c.

(** One name or value: [+] becomes a space, then percent-decoding, then
    UTF-8 decoding. *)
Definition urlencoded_decode (s : string) : string :=
  utf8_decode_without_BOM (percentDecode (Str.map plusToSpace s)).

Definition urlencoded_pair (seq : string) : option (string * string) :=
  if Str.isEmpty seq then None
  else
    let '(name, value) :=
      match Str.cut "="%char seq with
      | Some (n, v) => (n, v)
      | None => (seq, "")
      end in
    Some (urlencoded_decode name, urlencoded_decode value).

(** The list of name-value pairs of a query or form body, in order. *)
Definition urlencoded_parse (input : string) : list (string * string) :=
  omap urlencoded_pair (Str.split "&"%char input).

(** [new URLSearchParams(init)] with a string: one leading [?] is dropped. *)
Definition URLSearchParams_new (init : string) : list (string * string) :=
  urlencoded_parse
    match init with
    | String c rest => if Ascii.eqb c "?"%char then rest else init
    | EmptyString => init
    end.

(** ** [URL]

    The components of a parsed URL that the pipeline reads. [query] is the
    text after [?] (empty when there is none). *)
Record URL : Type := mkURL {
  protocol : string;
  hostname : string;
  port : string;
  pathname : string;
  query : string;
  fragment : string
}.

Definition isAlpha (c : ascii) : bool :=
  let n := Str.code c in
  (((65 <=? n) && (n <=? 90)) || ((97 <=? n) && (n <=? 122)))%N.

Definition isDigit (c : ascii) : bool :=
  let n := Str.code c in ((48 <=? n) && (n <=? 57))%N.

Definition isSchemeChar (c : ascii) : bool :=
  isAlpha c || isDigit c ||
  Ascii.eqb c "+"%char || Ascii.eqb c "-"%char || Ascii.eqb c "."%char.

Definition validScheme (s : string) : bool :=
  match s with
  | String c rest => isAlpha c && forallb isSchemeChar (Str.to_list rest)
  | EmptyString => false
  end.

(** The text after the last [@] (the whole text when there is none). *)
Definition afterCredentials (s : string) : string :=
  List.last (Str.split "@"%char s) s.

(** Host and port of an authority without credentials; an IPv6 literal
    keeps its brackets. *)
Definition splitHostPort (a : string) : option (string * string) :=
  match a with
  | String "[" _ =>
      match Str.cut "]"%char a with
      | Some (h, EmptyString) => Some (h ++ "]", "")
      | Some (h, String ":" p) => Some (h ++ "]", p)
      | _ => None
      end
  | _ =>
      match Str.cut ":"%char a with
      | Some (h, p) => Some (h, p)
      | None => Some (a, "")
      end
  end.

(** A port is a decimal number up to 65535 (or absent). *)
Definition validPort (p : string) : bool :=
  match readDigits p 0 true with
  | Some n => n <=? 65535
  | None => false
  end.

(** [new URL(input)] for an absolute URL with an authority: scheme,
    [//], authority up to the first of [/ ? #], path up to the first of
    [? #], query up to [#]. [None] stands for the [TypeError] that
    [new URL] throws; in particular an input without a scheme, such as a
    bare path, gives [None], and so does a port above 65535. The
    components are returned as written: the normalisations of the URL
    standard (default ports, percent-encoding, dot segments, host
    checks) are not modelled, nor are URLs without [//]. *)
Definition URL_parse (input : string) : option URL :=
  match Str.cut ":"%char input with
  | Some (scheme, String "/" (String "/" rest)) =>
      if validScheme scheme then
        let '(beforeHash, frag) :=
          match Str.cut "#"%char rest with
          | Some (a, b) => (a, b)
          | None => (rest, "")
          end in
        let '(beforeQuery, q) :=
          match Str.cut "?"%char beforeHash with
          | Some (a, b) => (a, b)
          | None => (beforeHash, "")
          end in
        let '(authority, path) :=
          match Str.cut "/"%char beforeQuery with
          | Some (a, b) => (a, "/" ++ b)
          | None => (beforeQuery, "/")
          end in
        match splitHostPort (afterCredentials authority) with
        | Some (host, p) =>
            if Str.isEmpty host
               || negb (forallb isDigit (Str.to_list p))
               || negb (validPort p)
            then None
            else Some {| protocol := Str.lower scheme ++ ":";
                         hostname := Str.lower host;
                         port := p;
                         pathname := path;
                         query := q;
                         fragment := frag |}
        | None => None
        end
      else None
  | _ => None
  end.

(** [url.searchParams]: the URL's query run through the urlencoded
    parser. *)
Definition searchParams (url : URL) : list (string * string) :=
  urlencoded_parse (query url).

(** ** Requests, the server context and effects *)

(** What reading the body stream to its end delivers. *)
Inductive BodySource : Type :=
| NoBody                      (* the request has no body *)
| BodyText (text : string)    (* the buffered body, decoded as text *)
| BodyError.                  (* the stream fails while being read *)

Record Request : Type := mkRequest {
  method : string;
  url : string;
  headers : Headers;
  body : BodySource
}.

Record SocketAddress : Type := mkSocketAddress {
  address : string;
  sa_port : Z;
  family : string
}.

(** Bun's [Server], the server-binding context: the bound hostname and
    port, and the peer lookup [requestIP]. *)
Record Server : Type := mkServer {
  srv_hostname : string;
  srv_port : Z;
  requestIP : Request -> option SocketAddress
}.

(** The mutable part of the world one invocation touches: whether the
    request's body stream was consumed ([request.bodyUsed]), how many
    times [request.text()] was called, and the clock. *)
Record World : Type := mkWorld {
  bodyUsed : bool;
  textCalls : nat;
  now : Z
}.

Inductive Exception : Type :=
| TypeError (msg : string)
| SyntaxError (msg : string)
| StreamError.

Inductive Completion (A : Type) : Type :=
| Normal (a : A)
| Throw (e : Exception).
Arguments Normal {A} a.
Arguments Throw {A} e.

(** An asynchronous computation: run to its settlement, it returns or
    throws, and leaves a new world. *)
Definition Async (A : Type) : Type := World -> Completion A * World.

Definition ret {A} (a : A) : Async A := fun w => (Normal a, w).

Definition throw {A} (e : Exception) : Async A := fun w => (Throw e, w).

Definition bind {A B} (c : Async A) (k : A -> Async B) : Async B :=
  fun w =>
    match c w with
    | (Normal a, w') => k a w'
    | (Throw e, w') => (Throw e, w')
    end.

(** [try { c } catch { h }] *)
Definition try_catch {A} (c : Async A) (h : Async A) : Async A :=
  fun w =>
    match c w with
    | (Normal a, w') => (Normal a, w')
    | (Throw _, w') => h w'
    end.

Definition lift {A} (r : option A) (e : Exception) : Async A :=
  match r with
  | Some a => ret a
  | None => throw e
  end.

Notation "'let!' x ':=' c 'in' k" := (bind c (fun x => k))
  (at level 10, x name, c at level 100, k at level 200).

(** [await request.text()]: rejects when the body was already consumed or
    the stream fails; a request without body reads as the empty text and
    is not marked as used. *)
Definition Request_text (request : Request) : Async string :=
  fun w =>
    let w1 := {| bodyUsed := bodyUsed w;
                 textCalls := S (textCalls w);
                 now := now w |} in
    if bodyUsed w then (Throw (TypeError "Body already used"), w1)
    else
      match body request with
      | NoBody => (Normal "", w1)
      | BodyText t =>
          (Normal t, {| bodyUsed := true;
                        textCalls := S (textCalls w);
                        now := now w |})
      | BodyError =>
          (Throw StreamError, {| bodyUsed := true;
                                 textCalls := S (textCalls w);
                                 now := now w |})
      end.

(** ** The snapshot ([src/types.ts]) and the response *)

Record EchoRequest : Type := mkEchoRequest {
  er_method : string;
  er_url : string;
  er_path : string;
  er_query : gmap string string;
  er_headers : gmap string string;
  er_body : JSValue;
  er_bodyRaw : option string;
  er_contentType : option string;
  er_contentLength : option number
}.

Record EchoClient : Type := mkEchoClient {
  ip : option string;
  userAgent : option string
}.

Record EchoServer : Type := mkEchoServer {
  es_hostname : string;
  es_port : Z
}.

Record EchoResponse : Type := mkEchoResponse {
  timestamp : string;
  request : EchoRequest;
  client : EchoClient;
  server : EchoServer
}.

(** A [Response]: status, header list and body text. *)
Record Response : Type := mkResponse {
  status : Z;
  resp_headers : Headers;
  resp_body : string
}.

(** The operations of the runtime whose results the pipeline only passes
    on: [JSON.parse] ([None] is its [SyntaxError]), [JSON.stringify(_,
    null, 2)] on a snapshot, and [Date.prototype.toISOString]. *)
Class Runtime : Type := {
  JSON_parse : string -> option JSValue;
  JSON_stringify : EchoResponse -> string;
  toISOString : Z -> string
}.

(** ** The pipeline ([src/echo-handler.ts]) *)

Record ParsedBody : Type := mkParsedBody {
  parsed : JSValue;
  raw : option string
}.

Section Pipeline.

Context `{Runtime}.

Definition parseBody (request : Request) : Async ParsedBody :=
  let contentType := Headers_get (headers request) "content-type" in
  if String.eqb (method request) "GET"
     || String.eqb (method request) "HEAD"
     || String.eqb (method request) "OPTIONS"
  then ret {| parsed := Null; raw := None |}
  else
    try_catch
      (let! rawBody := Request_text request in
       if Str.isEmpty rawBody then ret {| parsed := Null; raw := None |}
       else if from_option (fun ct => Str.includes ct "application/json")
                 false contentType
       then
         try_catch
           (let! value := lift (JSON_parse rawBody) (SyntaxError "JSON Parse error") in
            ret {| parsed := value; raw := Some rawBody |})
           (ret {| parsed := Null; raw := Some rawBody |})
       else if from_option
                 (fun ct => Str.includes ct "application/x-www-form-urlencoded")
                 false contentType
       then
         let formData : gmap string string := ∅ in
         let params := URLSearchParams_new rawBody in
         let formData := obj_assign_all params formData in
         ret {| parsed := Rec formData; raw := Some rawBody |}
       else ret {| parsed := Null; raw := Some rawBody |})
      (ret {| parsed := Null; raw := None |}).

Definition parseQuery (url : URL) : gmap string string :=
  let query : gmap string string := ∅ in
  obj_assign_all (searchParams url) query.

Definition parseHeaders (headers : Headers) : gmap string string :=
  let result : gmap string string := ∅ in
  obj_assign_all (Headers_entries headers) result.

(** [new Date().toISOString()] *)
Definition Date_now_iso : Async string :=
  fun w => (Normal (toISOString (now w)), w).

Definition createEchoResponse (request : Request) (server : Server)
  : Async EchoResponse :=
  let! url' := lift (URL_parse (url request)) (TypeError "Invalid URL") in
  let! pb := parseBody request in
  let headers' := parseHeaders (headers request) in
  let! ts := Date_now_iso in
  ret {| timestamp := ts;
         request :=
           {| er_method := method request;
              er_url := url request;
              er_path := pathname url';
              er_query := parseQuery url';
              er_headers := headers';
              er_body := parsed pb;
              er_bodyRaw := raw pb;
              er_contentType := Headers_get (headers request) "content-type";
              er_contentLength :=
                match Headers_get (headers request) "content-length" with
                | Some v =>
                    if Str.isEmpty v then None else Some (parseInt10 v)
                | None => None
                end |};
         client :=
           {| ip := option_map address (requestIP server request);
              userAgent := Headers_get (headers request) "user-agent" |};
         server :=
           {| es_hostname := hostname url';
              es_port := srv_port server |} |}.

Definition handleRequest (request : Request) (server : Server)
  : Async Response :=
  let! echoResponse := createEchoResponse request server in
  ret {| status := 200;
         resp_headers :=
           [("Content-Type", "application/json");
            ("X-Echo-Server", "http-echo-server/1.0.0")];
         resp_body := JSON_stringify echoResponse |}.

End Pipeline.

(** ** The entry point ([src/index.ts]) *)

(** [a || b] where [a] is a [string | undefined]: [b] when [a] is
    undefined or the empty string. *)
Definition orElse (a : option string) (b : string) : string :=
  match a with
  | Some s => if Str.isEmpty s then b else s
  | None => b
  end.

(** [const PORT = parseInt(process.env.PORT || "3000", 10)], as a function
    of the environment variables that are set. *)
Definition PORT (env : gmap string string) : number :=
  parseInt10 (orElse (env !! "PORT") "3000").

(** [const HOSTNAME = process.env.HOSTNAME || "0.0.0.0"] *)
Definition HOSTNAME (env : gmap string string) : string :=
  orElse (env !! "HOSTNAME") "0.0.0.0".

(** ** A runtime to compute with

    An executable [JSON.parse] for the JSON grammar (ECMA-404): values are
    decoded by recursive descent, with fuel proportional to the length of
    the text. A repeated key keeps its first position and its last value,
    and the members of an object are listed in own-property order.
    Integers are rounded to doubles; a decimal fraction is kept as
    written, [Dec m e], and is not rounded. [JSON.stringify] and
    [toISOString] are rendered by [Render] and [ISODate] below. The
    theorems do not depend on this instance: they hold for every
    [Runtime]. *)

Module JSON.

Definition isWs (c : ascii) : bool :=
  let n := Str.code c in ((n =? 32) || (n =? 9) || (n =? 10) || (n =? 13))%N.

Fixpoint skipWs (s : string) : string :=
  match s with
  | String c s' => if isWs c then skipWs s' else s
  | EmptyString => s
  end.

(** UTF-8 encoding of a code point (a lone surrogate is encoded like any
    other three-byte code point). *)
Definition utf8_encode (cp : N) : string :=
  let b (n : N) := ascii_of_N n in
  (if cp <? 128 then String (b cp) ""
   else if cp <? 2048 then
     String (b (192 + cp / 64)) (String (b (128 + cp mod 64)) "")
   else if cp <? 65536 then
     String (b (224 + cp / 4096))
       (String (b (128 + (cp / 64) mod 64)) (String (b (128 + cp mod 64)) ""))
   else
     String (b (240 + cp / 262144))
       (String (b (128 + (cp / 4096) mod 64))
          (String (b (128 + (cp / 64) mod 64))
             (String (b (128 + cp mod 64)) ""))))%N.

Definition hex4 (s : string) : option (N * string) :=
  match s with
  | String a (String b (String c (String d rest))) =>
      match hexValue a, hexValue b, hexValue c, hexValue d with
      | Some x, Some y, Some z, Some w =>
          Some (4096 * x + 256 * y + 16 * z + w, rest)%N
      | _, _, _, _ => None
      end
  | _ => None
  end.

Definition simpleEscape (c : ascii) : option ascii :=
  let n := Str.code c in
  if (n =? 34)%N then Some c               (* quotation mark *)
  else if (n =? 92)%N then Some c          (* reverse solidus *)
  else if (n =? 47)%N then Some c          (* solidus *)
  else if (n =? 98)%N then Some (ascii_of_N 8)     (* b *)
  else if (n =? 102)%N then Some (ascii_of_N 12)   (* f *)
  else if (n =? 110)%N then Some (ascii_of_N 10)   (* n *)
  else if (n =? 114)%N then Some (ascii_of_N 13)   (* r *)
  else if (n =? 116)%N then Some (ascii_of_N 9)    (* t *)
  else None.

(** The characters of a string literal after its opening quote, up to
    and including the closing quote; returns the decoded text and the
    rest of the input. *)
Fixpoint stringBody (fuel : nat) (s : string) : option (string * string) :=
  match fuel with
  | O => None
  | S fuel' =>
      match s with
      | EmptyString => None
      | String c rest =>
          let n := Str.code c in
          if (n =? 34)%N then Some ("", rest)
          else if (n <? 32)%N then None
          else if (n =? 92)%N then
            match rest with
            | String e rest' =>
                if Ascii.eqb e "u"%char then
                  match hex4 rest' with
                  | Some (hi, r1) =>
                      let pair :=
                        if ((55296 <=? hi) && (hi <=? 56319))%N then
                          match r1 with
                          | String b1 (String b2 r2) =>
                              if ((Str.code b1 =? 92) && (Str.code b2 =? 117))%N
                              then
                                match hex4 r2 with
                                | Some (lo, r3) =>
                                    if ((56320 <=? lo) && (lo <=? 57343))%N
                                    then Some (65536 + (hi - 55296) * 1024
                                               + (lo - 56320), r3)%N
                                    else None
                                | None => None
                                end
                              else None
                          | _ => None
                          end
                        else None in
                      let '(cp, r) :=
                        match pair with Some p => p | None => (hi, r1) end in
                      match stringBody fuel' r with
                      | Some (t, r') => Some (utf8_encode cp ++ t, r')
                      | None => None
                      end
                  | None => None
                  end
                else
                  match simpleEscape e with
                  | Some d =>
                      match stringBody fuel' rest' with
                      | Some (t, r') => Some (String d t, r')
                      | None => None
                      end
                  | None => None
                  end
            | EmptyString => None
            end
          else
            match stringBody fuel' rest with
            | Some (t, r') => Some (String c t, r')
            | None => None
            end
      end
  end.

(** The longest run of decimal digits at the head of [s]: its value, its
    length and the rest. *)
Fixpoint digits (s : string) (acc : Z) (len : Z) : Z * Z * string :=
  match s with
  | String c s' =>
      match digitValue c with
      | Some d => digits s' (10 * acc + d) (len + 1)
      | None => (acc, len, s)
      end
  | EmptyString => (acc, len, s)
  end.

(** [m * 10^e] as a [number], with [e <= 0] reduced as far as it goes. *)
Fixpoint reduce (fuel : nat) (m e : Z) : number :=
  match fuel with
  | O => if e =? 0 then Int m else Dec m e
  | S fuel' =>
      if e =? 0 then Int m
      else if m =? 0 then Int 0
      else if m mod 10 =? 0 then reduce fuel' (m / 10) (e + 1)
      else Dec m e
  end.

Definition mkNumber (m e : Z) : number :=
  if 0 <=? e then roundToDouble (m * 10 ^ e) else reduce (Z.to_nat (- e)) m e.

(** A number literal: [-]? int frac? exp?, no leading zeros. *)
Definition numberLit (s : string) : option (number * string) :=
  let '(sign, s1) :=
    match s with
    | String "-" r => (-1, r)
    | _ => (1, s)
    end in
  let '(ipart, ilen, s2) := digits s1 0 0 in
  if (ilen =? 0) || ((1 <? ilen) && String.prefix "0" s1) then None
  else
    let frac :=
      match s2 with
      | String "." r =>
          let '(m, flen, s3) := digits r ipart 0 in
          if flen =? 0 then None else Some (m, flen, s3)
      | _ => Some (ipart, 0, s2)
      end in
    match frac with
    | None => None
    | Some (m, flen, s3) =>
        let expo :=
          match s3 with
          | String c r =>
              if Ascii.eqb c "e"%char || Ascii.eqb c "E"%char then
                let '(esign, r') :=
                  match r with
                  | String "-" r' => (-1, r')
                  | String "+" r' => (1, r')
                  | _ => (1, r)
                  end in
                let '(ev, elen, s4) := digits r' 0 0 in
                if elen =? 0 then None else Some (esign * ev, s4)
              else Some (0, s3)
          | EmptyString => Some (0, s3)
          end in
        match expo with
        | None => None
        | Some (ev, s4) => Some (mkNumber (sign * m) (ev - flen), s4)
        end
    end.

(** Defines property [k] of an object under construction. *)
Fixpoint define (k : string) (v : JSValue) (props : list (string * JSValue))
  : list (string * JSValue) :=
  match props with
  | [] => [(k, v)]
  | (k', v') :: rest =>
      if String.eqb k k' then (k', v) :: rest else (k', v') :: define k v rest
  end.

(** An array index: a canonical decimal numeral below [2^32 - 1]. *)
Definition arrayIndex (k : string) : option Z :=
  match k with
  | EmptyString => None
  | String c rest =>
      if Ascii.eqb c "0"%char && negb (Str.isEmpty rest) then None
      else if forallb isDigit (Str.to_list k) then
        match readDigits k 0 false with
        | Some n => if n <=? 4294967294 then Some n else None
        | None => None
        end
      else None
  end.

Fixpoint insertIndex (i : Z) (kv : string * JSValue)
  (l : list (Z * (string * JSValue))) : list (Z * (string * JSValue)) :=
  match l with
  | [] => [(i, kv)]
  | (j, kv') :: rest =>
      if i <? j then (i, kv) :: l else (j, kv') :: insertIndex i kv rest
  end.

(** The own keys of an object in enumeration order: array indices first,
    in ascending order, then the other keys as they were created. *)
Definition ownPropertyOrder (props : list (string * JSValue))
  : list (string * JSValue) :=
  let indexed :=
    fold_left
      (fun acc kv =>
         match arrayIndex (fst kv) with
         | Some i => insertIndex i kv acc
         | None => acc
         end)
      props [] in
  (List.map snd indexed
    ++ List.filter
         (fun kv => match arrayIndex (fst kv) with Some _ => false | None => true end)
         props)%list.

Definition literal (word : string) (v : JSValue) (s : string)
  : option (JSValue * string) :=
  if String.prefix word s
  then Some (v, substring (String.length word)
                  (String.length s - String.length word) s)
  else None.

Fixpoint value (fuel : nat) (s : string) : option (JSValue * string) :=
  match fuel with
  | O => None
  | S fuel' =>
      match skipWs s with
      | EmptyString => None
      | String c rest as s0 =>
          if Ascii.eqb c "{"%char then
            match skipWs rest with
            | String "}" r => Some (Obj [], r)
            | r => members fuel' r []
            end
          else if Ascii.eqb c "["%char then
            match skipWs rest with
            | String "]" r => Some (Arr [], r)
            | r => elements fuel' r []
            end
          else if (Str.code c =? 34)%N then
            match stringBody (S (String.length rest)) rest with
            | Some (t, r) => Some (Text t, r)
            | None => None
            end
          else if Ascii.eqb c "t"%char then literal "true" (Bool true) s0
          else if Ascii.eqb c "f"%char then literal "false" (Bool false) s0
          else if Ascii.eqb c "n"%char then literal "null" Null s0
          else
            match numberLit s0 with
            | Some (n, r) => Some (Num n, r)
            | None => None
            end
      end
  end

with members (fuel : nat) (s : string) (acc : list (string * JSValue))
  : option (JSValue * string) :=
  match fuel with
  | O => None
  | S fuel' =>
      match skipWs s with
      | String c rest =>
          if negb (Str.code c =? 34)%N then None else
          match stringBody (S (String.length rest)) rest with
          | Some (k, r) =>
              match skipWs r with
              | String ":" r1 =>
                  match value fuel' r1 with
                  | Some (v, r2) =>
                      match skipWs r2 with
                      | String "," r3 => members fuel' r3 (define k v acc)
                      | String "}" r3 =>
                          Some (Obj (ownPropertyOrder (define k v acc)), r3)
                      | _ => None
                      end
                  | None => None
                  end
              | _ => None
              end
          | None => None
          end
      | _ => None
      end
  end

with elements (fuel : nat) (s : string) (acc : list JSValue)
  : option (JSValue * string) :=
  match fuel with
  | O => None
  | S fuel' =>
      match value fuel' s with
      | Some (v, r) =>
          match skipWs r with
          | String "," r1 => elements fuel' r1 (acc ++ [v])
          | String "]" r1 => Some (Arr (acc ++ [v]), r1)
          | _ => None
          end
      | None => None
      end
  end.

(** [JSON.parse(text)]: one value, optional white space around it,
    nothing else. *)
Definition parse (text : string) : option JSValue :=
  match value (2 * String.length text + 2) text with
  | Some (v, rest) => if Str.isEmpty (skipWs rest) then Some v else None
  | None => None
  end.

End JSON.

Module ISODate.

Definition decimal (z : Z) : string := NilZero.string_of_int (Z.to_int z).

(** [z >= 0] in decimal, padded with zeros to [width] digits. *)
Definition padded (width : nat) (z : Z) : string :=
  let d := decimal z in
  Str.of_list (repeat "0"%char (width - String.length d)) ++ d.

(** Year, month and day of the proleptic Gregorian calendar for a day
    number counted from 1970-01-01. *)
Definition civil (days : Z) : Z * Z * Z :=
  let z := days + 719468 in
  let era := z / 146097 in
  let doe := z - era * 146097 in
  let yoe := (doe - doe / 1460 + doe / 36524 - doe / 146096) / 365 in
  let doy := doe - (365 * yoe + yoe / 4 - yoe / 100) in
  let mp := (5 * doy + 2) / 153 in
  let d := doy - (153 * mp + 2) / 5 + 1 in
  let m := if mp <? 10 then mp + 3 else mp - 9 in
  let y := yoe + era * 400 + (if m <=? 2 then 1 else 0) in
  (y, m, d).

(** [new Date(t).toISOString()] for a time value [t] in milliseconds
    since the epoch. *)
Definition toISOString (t : Z) : string :=
  let '(y, m, d) := civil (t / 86400000) in
  let ms := t mod 86400000 in
  let year :=
    if (0 <=? y) && (y <=? 9999) then padded 4 y
    else (if y <? 0 then "-" else "+") ++ padded 6 (Z.abs y) in
  year ++ "-" ++ padded 2 m ++ "-" ++ padded 2 d ++ "T"
    ++ padded 2 (ms / 3600000) ++ ":" ++ padded 2 (ms / 60000 mod 60) ++ ":"
    ++ padded 2 (ms / 1000 mod 60) ++ "." ++ padded 3 (ms mod 1000) ++ "Z".

End ISODate.

Module Render.

Definition quotationMark : string := String (ascii_of_N 34) "".

Definition hexDigit (n : N) : ascii :=
  ascii_of_N (if (n <? 10)%N then 48 + n else 87 + n).

Definition escape (c : ascii) : string :=
  let n := Str.code c in
  (if n =? 34 then "\" ++ quotationMark
   else if n =? 92 then "\\"
   else if n =? 8 then "\b"
   else if n =? 9 then "\t"
   else if n =? 10 then "\n"
   else if n =? 12 then "\f"
   else if n =? 13 then "\r"
   else if n <? 32 then
     "\u00" ++ String (hexDigit (n / 16)) (String (hexDigit (n mod 16)) "")
   else String c "")%N.

Definition quote (s : string) : string :=
  quotationMark ++ String.concat "" (List.map escape (Str.to_list s))
    ++ quotationMark.

(** Decimal text of a number; [NaN] and the infinities are serialised as
    [null]. Integers are written in full, also from [10^21] on. *)
Definition numberText (n : number) : string :=
  match n with
  | NaN => "null"
  | Infinity _ => "null"
  | Int z => ISODate.decimal z
  | Dec m e =>
      let scale := 10 ^ (- e) in
      (if m <? 0 then "-" else "") ++ ISODate.decimal (Z.abs m / scale)
        ++ "." ++ ISODate.padded (Z.to_nat (- e)) (Z.abs m mod scale)
  end.

Definition newline : string := String (ascii_of_N 10) "".

Definition block (opening closing indent : string) (items : list string)
  : string :=
  match items with
  | [] => opening ++ closing
  | _ =>
      opening ++ newline ++ indent ++ "  "
        ++ String.concat ("," ++ newline ++ indent ++ "  ") items
        ++ newline ++ indent ++ closing
  end.

(** [JSON.stringify(v, null, 2)], [indent] being the current
    indentation. The members of a string record are written in the key
    order of the map. *)
Fixpoint stringify (indent : string) (v : JSValue) : string :=
  match v with
  | Null => "null"
  | Bool true => "true"
  | Bool false => "false"
  | Num n => numberText n
  | Text s => quote s
  | Arr items =>
      block "[" "]" indent (List.map (stringify (indent ++ "  ")) items)
  | Obj props =>
      block "{" "}" indent
        (List.map
           (fun kv => quote (fst kv) ++ ": " ++ stringify (indent ++ "  ") (snd kv))
           props)
  | Rec fields =>
      block "{" "}" indent
        (List.map (fun kv => quote (fst kv) ++ ": " ++ quote (snd kv))
           (map_to_list fields))
  end.

Definition nullable {A} (f : A -> JSValue) (o : option A) : JSValue :=
  match o with Some a => f a | None => Null end.

(** The snapshot as a value, members in the order of the object
    literal of [createEchoResponse]. *)
Definition snapshot (e : EchoResponse) : JSValue :=
  let r := request e in
  Obj [("timestamp", Text (timestamp e));
       ("request",
        Obj [("method", Text (er_method r));
             ("url", Text (er_url r));
             ("path", Text (er_path r));
             ("query", Rec (er_query r));
             ("headers", Rec (er_headers r));
             ("body", er_body r);
             ("bodyRaw", nullable Text (er_bodyRaw r));
             ("contentType", nullable Text (er_contentType r));
             ("contentLength", nullable Num (er_contentLength r))]);
       ("client",
        Obj [("ip", nullable Text (ip (client e)));
             ("userAgent", nullable Text (userAgent (client e)))]);
       ("server",
        Obj [("hostname", Text (es_hostname (server e)));
             ("port", Num (Int (es_port (server e))))])].

End Render.

#[export] Instance runtime : Runtime := {|
  JSON_parse := JSON.parse;
  JSON_stringify := fun e => Render.stringify "" (Render.snapshot e);
  toISOString := ISODate.toISOString
|}.

(** Writes JSON text with ['] for the quotation mark. *)
Definition json (s : string) : string :=
  Str.map (fun c => if Ascii.eqb c "'"%char then ascii_of_N 34 else c) s.

(** A server that knows no peer address, like the one of the test suite. *)
Definition noPeer : Request -> option SocketAddress := fun _ => None.

(** A fresh request at 2024-01-15T10:30:00.000Z. *)
Definition world0 : World :=
  {| bodyUsed := false; textCalls := 0; now := 1705314600000 |}.

(** ** Sample requests, after [src/echo-handler.test.ts] and the README *)

Definition server0 : Server :=
  {| srv_hostname := "0.0.0.0"; srv_port := 3000; requestIP := noPeer |}.

Definition getWithBody : Request :=
  {| method := "GET"; url := "http://localhost/test";
     headers := [("Content-Type", "application/json")];
     body := BodyText (json "{'ignored': true}") |}.

Definition optionsJson : Request :=
  {| method := "OPTIONS"; url := "http://localhost/test";
     headers := [("Content-Type", "application/json")];
     body := BodyText (json "{'a': 1}") |}.

Definition postJson : Request :=
  {| method := "POST"; url := "http://localhost/test";
     headers := [("Content-Type", "application/json")];
     body := BodyText (json "{'name':'test','value':123}") |}.

Definition postInvalidJson : Request :=
  {| method := "POST"; url := "http://localhost/test";
     headers := [("Content-Type", "application/json")];
     body := BodyText "invalid json {" |}.

Definition postForm : Request :=
  {| method := "POST"; url := "http://localhost/test";
     headers := [("Content-Type", "application/x-www-form-urlencoded")];
     body := BodyText "name=test&value=123" |}.

Definition postPlain : Request :=
  {| method := "POST"; url := "http://localhost/test";
     headers := [("Content-Type", "text/plain")];
     body := BodyText "Hello World" |}.

Definition postEmpty : Request :=
  {| method := "POST"; url := "http://localhost/test";
     headers := [];
     body := BodyText "" |}.

Definition readmePost : Request :=
  {| method := "POST"; url := "http://localhost:3000/api/data?foo=bar";
     headers := [("Host", "localhost:3000");
                 ("Content-Type", "application/json");
                 ("User-Agent", "curl/8.0.0");
                 ("Content-Length", "27")];
     body := BodyText (json "{'message': 'Hello, Echo!'}") |}.

Definition bothTypes : string :=
  "application/json, application/x-www-form-urlencoded".

Definition postBoth : Request :=
  {| method := "POST"; url := "http://localhost/test";
     headers := [("Content-Type", bothTypes)];
     body := BodyText "a=1" |}.

Definition optionsBoth : Request :=
  {| method := "OPTIONS"; url := "http://localhost/test";
     headers := [("Content-Type", bothTypes)];
     body := BodyText "a=1" |}.

Definition postBadLength : Request :=
  {| method := "POST"; url := "http://localhost/test";
     headers := [("Content-Type", "text/plain"); ("Content-Length", "abc")];
     body := BodyText "Hello World" |}.

Definition optionsForm : Request :=
  {| method := "OPTIONS"; url := "http://localhost/test";
     headers := [("Content-Type", "application/x-www-form-urlencoded")];
     body := BodyText "a=1" |}.

Definition postFormProto : Request :=
  {| method := "POST"; url := "http://localhost/test";
     headers := [("Content-Type", "application/x-www-form-urlencoded")];
     body := BodyText "__proto__=x&a=1" |}.

Definition postUpperCaseType : Request :=
  {| method := "POST"; url := "http://localhost/test";
     headers := [("Content-Type", "Application/JSON")];
     body := BodyText "[1, 2]" |}.

Definition postJsonElsewhere : Request :=
  {| method := "POST"; url := "http://example.org:8080/other?x=1";
     headers := [("Accept", "*/*"); ("content-type", "application/json");
                 ("X-Request-ID", "abc-123")];
     body := BodyText (json "{'name':'test','value':123}") |}.

Definition queryRepeated : URL :=
  {| protocol := "http:"; hostname := "localhost"; port := "";
     pathname := "/test"; query := "a=1&b=x%20y&a=2"; fragment := "" |}.

Definition headersRepeated : Headers :=
  [("Accept", "text/html"); ("Host", "localhost:3000");
   ("accept", "application/json")].

Definition relativeUrlRequest : Request :=
  {| method := "POST"; url := "/api/data";
     headers := [("Content-Type", "application/json")];
     body := BodyText "[]" |}.

Definition queryEncoded : URL :=
  {| protocol := "http:"; hostname := "localhost"; port := "";
     pathname := "/test"; query := "%71=%61%26%62%3D%63&%71=%78%20%79";
     fragment := "" |}.

Definition postFormQuestionMark : Request :=
  {| method := "POST"; url := "http://localhost/test";
     headers := [("Content-Type", "application/x-www-form-urlencoded")];
     body := BodyText "?a=1&b=2" |}.

(** A request received without a [Host] header: its [url] is the bare
    request target. *)
Definition noHostRequest : Request :=
  {| method := "GET"; url := "/api/data";
     headers := [("User-Agent", "curl/8.0.0")];
     body := NoBody |}.

(** A request received with [Host: localhost:99999]. *)
Definition badPortRequest : Request :=
  {| method := "GET"; url := "http://localhost:99999/api/data";
     headers := [("Host", "localhost:99999")];
     body := NoBody |}.

(** * Vocabulary of the properties *)

(** The methods whose body [parseBody] does not read. *)
Definition bodyless (m : string) : Prop :=
  m = "GET" \/ m = "HEAD" \/ m = "OPTIONS".

(** [new URL(request.url)] succeeds. *)
Definition wellFormed (req : Request) : Prop :=
  exists u, URL_parse (url req) = Some u.

(** [{parsed: null, raw: null}] *)
Definition nullBody : ParsedBody := {| parsed := Null; raw := None |}.

Section Vocabulary.

Context `{Runtime}.

(** What [parseBody] returns once the body text [t] has been read:
    lines 20 to 41 of the source as a function of [t] and the declared
    content type. *)
Definition classify (contentType : option string) (t : string) : ParsedBody :=
  if Str.isEmpty t then nullBody
  else if from_option (fun ct => Str.includes ct "application/json")
            false contentType
  then {| parsed := default Null (JSON_parse t); raw := Some t |}
  else if from_option
            (fun ct => Str.includes ct "application/x-www-form-urlencoded")
            false contentType
  then {| parsed := Rec (obj_assign_all (URLSearchParams_new t) ∅);
          raw := Some t |}
  else {| parsed := Null; raw := Some t |}.

End Vocabulary.

(** [sub] occurs in [s]: the meaning of [s.includes(sub)]. *)
Definition contains (s sub : string) : Prop :=
  exists pre post, s = pre ++ sub ++ post.

(** The character of the decimal digit [d]. *)
Definition digitChar (d : Z) : ascii := ascii_of_N (48 + Z.to_N d).

(** The text of a digit sequence. *)
Definition digitString (ds : list Z) : string :=
  Str.of_list (List.map digitChar ds).

(** The value of a digit sequence, most significant digit first. *)
Fixpoint positional (ds : list Z) : Z :=
  match ds with
  | [] => 0
  | d :: rest => d * 10 ^ Z.of_nat (length rest) + positional rest
  end.

(** The sign written before a numeral, if any. *)
Inductive Sign : Type := NoSign | Plus | Minus.

Definition signText (s : Sign) : string :=
  match s with NoSign => "" | Plus => "+" | Minus => "-" end.

Definition signValue (s : Sign) : Z :=
  match s with Minus => -1 | _ => 1 end.

(** [s] is empty or starts with a character that is not a decimal digit. *)
Definition noDigitAhead (s : string) : Prop :=
  match s with
  | EmptyString => True
  | String c _ => digitValue c = None
  end.

(** [v] starts with a base-10 integer of value [z]: white space, an
    optional sign, at least one digit, then anything that does not
    continue the digits. *)
Definition numeral (v : string) (z : Z) : Prop :=
  exists (ws : list ascii) (sg : Sign) (ds : list Z) (tail : string),
    v = Str.of_list ws ++ signText sg ++ digitString ds ++ tail
    /\ Forall (fun c => isStrWhiteSpaceChar c = true) ws
    /\ ds <> []
    /\ Forall (fun d => 0 <= d <= 9) ds
    /\ noDigitAhead tail
    /\ z = signValue sg * positional ds.

(** The value of the last pair of [pairs] whose key is [k]. *)
Definition lastValue (k : string) (pairs : list (string * string))
  : option string :=
  snd <$> last (filter (fun kv => fst kv = k) pairs).

(** No character of [s] is [d]. *)
Definition without (d : ascii) (s : string) : Prop :=
  Forall (fun c => c <> d) (Str.to_list s).

(** The text [k1=v1&k2=v2&...] for a list of pairs. *)
Definition formEncode (pairs : list (string * string)) : string :=
  Str.join "&" (List.map (fun kv => fst kv ++ "=" ++ snd kv) pairs).

(** A key without [&] and [=], a value without [&]. *)
Definition plainPair (kv : string * string) : Prop :=
  without "&" (fst kv) /\ without "=" (fst kv) /\ without "&" (snd kv).

(** The upper-case hexadecimal digit of [n < 16]. *)
Definition hexChar (n : N) : ascii :=
  ascii_of_N (if (n <? 10)%N then 48 + n else 55 + n).

(** The byte [c] written as [%XY]. *)
Definition percentEncodeByte (c : ascii) : string :=
  String "%" (String (hexChar (Str.code c / 16))
                (String (hexChar (Str.code c mod 16)) "")).

(** Every byte of [s] written as [%XY]. *)
Fixpoint percentEncode (s : string) : string :=
  match s with
  | EmptyString => EmptyString
  | String c rest => percentEncodeByte c ++ percentEncode rest
  end.

(** The pairs as the parser delivers them: keys and values decoded. *)
Definition decodePairs (pairs : list (string * string))
  : list (string * string) :=
  List.map (fun kv => (urlencoded_decode (fst kv), urlencoded_decode (snd kv)))
    pairs.

(** An integer that is a double: at most 53 significant bits, below
    [2^1024]. *)
Definition representable (y : Z) : Prop :=
  exists m k, y = m * 2 ^ k /\ Z.abs m < 2 ^ 53 /\ 0 <= k <= 971.

(** [n] is the double nearest to the integer [z]: an integer double
    that no other integer double beats, or the infinity of the sign of
    [z] when [z] is beyond the range of doubles. *)
Definition nearestDouble (z : Z) (n : number) : Prop :=
  match n with
  | Int z' =>
      representable z'
      /\ forall y, representable y -> Z.abs (z - z') <= Z.abs (z - y)
  | Infinity negative =>
      2 ^ 1024 - 2 ^ 970 <= Z.abs z /\ negative = (z <? 0)
  | _ => False
  end.

(** The text without one leading [?], as [new URLSearchParams] reads
    it. *)
Definition dropQuestionMark (t : string) : string :=
  match t with
  | String c rest => if Ascii.eqb c "?"%char then rest else t
  | EmptyString => t
  end.

(** Every character of [s] is ASCII. *)
Definition isASCII (s : string) : Prop :=
  Forall (fun c => (Str.code c <= 127)%N) (Str.to_list s).

(** The world after [request.text()] was called once more; [used] tells
    whether the body stream is now consumed. *)
Definition afterRead (used : bool) (w : World) : World :=
  {| bodyUsed := used; textCalls := S (textCalls w); now := now w |}.

(** The pairs with every key and value percent-encoded. *)
Definition encodePairs (pairs : list (string * string))
  : list (string * string) :=
  List.map (fun kv => (percentEncode (fst kv), percentEncode (snd kv))) pairs.

(** * Lemmas *)

Lemma bodyless_test (m : string) :
  bodyless m <->
  String.eqb m "GET" || String.eqb m "HEAD" || String.eqb m "OPTIONS" = true.
Proof.
  unfold bodyless.
  rewrite !orb_true_iff, !String.eqb_eq. tauto.
Qed.

Lemma not_bodyless_test (m : string) :
  ~ bodyless m ->
  String.eqb m "GET" || String.eqb m "HEAD" || String.eqb m "OPTIONS" = false.
Proof.
  intros Hm. apply not_true_is_false. by rewrite <- bodyless_test.
Qed.

Lemma isEmpty_true (s : string) : Str.isEmpty s = true <-> s = "".
Proof. destruct s; simpl; split; congruence. Qed.

Lemma isEmpty_false (s : string) : s <> "" -> Str.isEmpty s = false.
Proof. destruct s; simpl; congruence. Qed.

Section ParseBody.

Context `{Runtime}.

Lemma parseBody_bodyless (req : Request) (w : World) :
  bodyless (method req) -> parseBody req w = (Normal nullBody, w).
Proof.
  intros Hm. unfold parseBody.
  apply bodyless_test in Hm. by rewrite Hm.
Qed.

Lemma parseBody_read (req : Request) (w w' : World) (t : string) :
  ~ bodyless (method req) ->
  Request_text req w = (Normal t, w') ->
  parseBody req w =
    (Normal (classify (Headers_get (headers req) "content-type") t), w').
Proof.
  intros Hm Ht. unfold parseBody, classify.
  rewrite (not_bodyless_test _ Hm).
  unfold try_catch at 1. unfold bind at 1. rewrite Ht.
  destruct (Str.isEmpty t); [done |].
  destruct (from_option _ false _).
  - unfold try_catch, bind, lift. by destruct (JSON_parse t).
  - by destruct (from_option _ false _).
Qed.

Lemma parseBody_read_fails (req : Request) (w w' : World) (e : Exception) :
  ~ bodyless (method req) ->
  Request_text req w = (Throw e, w') ->
  parseBody req w = (Normal nullBody, w').
Proof.
  intros Hm Ht. unfold parseBody.
  rewrite (not_bodyless_test _ Hm).
  unfold try_catch at 1. unfold bind at 1. by rewrite Ht.
Qed.

(** [parseBody] returns on every request and in every world; it never
    throws. *)
Lemma parseBody_returns (req : Request) (w : World) :
  exists pb w', parseBody req w = (Normal pb, w').
Proof.
  destruct (decide (bodyless (method req))) as [Hm | Hm].
  - eauto using parseBody_bodyless.
  - destruct (Request_text req w) as [[t | e] w'] eqn:Ht.
    + eauto using parseBody_read.
    + eauto using parseBody_read_fails.
Qed.

End ParseBody.

(** ** Substring containment *)

Lemma prefix_nil (s : string) : String.prefix "" s = true.
Proof. by destruct s. Qed.

Lemma prefix_cons (c : ascii) (a s : string) :
  String.prefix (String c a) s =
    match s with
    | EmptyString => false
    | String d s' => if ascii_dec c d then String.prefix a s' else false
    end.
Proof. by destruct s. Qed.

Lemma app_cons (c : ascii) (a b : string) : String c a ++ b = String c (a ++ b).
Proof. reflexivity. Qed.

Lemma app_nil_l (a : string) : "" ++ a = a.
Proof. reflexivity. Qed.

Lemma prefix_spec (sub s : string) :
  String.prefix sub s = true <-> exists post, s = sub ++ post.
Proof.
  revert s. induction sub as [| c sub IH]; intros s.
  - rewrite prefix_nil. split; [intros _; by exists s | done].
  - rewrite prefix_cons. destruct s as [| d s].
    + split; [done | intros [post Hp]; discriminate].
    + destruct (ascii_dec c d) as [-> | Hne].
      * rewrite IH.
        split; intros [post Hp]; exists post; rewrite app_cons in *; congruence.
      * split; [done | intros [post Hp]; rewrite app_cons in Hp; congruence].
Qed.

Lemma includes_nil (sub : string) :
  Str.includes "" sub = String.prefix sub "" || false.
Proof. reflexivity. Qed.

Lemma includes_cons (c : ascii) (s sub : string) :
  Str.includes (String c s) sub =
    String.prefix sub (String c s) || Str.includes s sub.
Proof. reflexivity. Qed.

Lemma includes_spec (s sub : string) :
  Str.includes s sub = true <-> contains s sub.
Proof.
  unfold contains. induction s as [| c s IH].
  - rewrite includes_nil, orb_false_r, prefix_spec. split.
    + intros [post Hp]. by exists "", post.
    + intros [pre [post Hp]]. destruct pre.
      * by exists post.
      * discriminate.
  - rewrite includes_cons, orb_true_iff, prefix_spec, IH. split.
    + intros [[post Hp] | [pre [post Hp]]].
      * by exists "", post.
      * exists (String c pre), post. rewrite app_cons. by rewrite Hp.
    + intros [pre [post Hp]]. destruct pre as [| d pre].
      * left. by exists post.
      * right. exists pre, post. rewrite app_cons in Hp. congruence.
Qed.

Lemma includes_false (s sub : string) :
  Str.includes s sub = false <-> ~ contains s sub.
Proof. rewrite <- includes_spec. by destruct (Str.includes s sub). Qed.

(** ** The snapshot assembler *)

Section Assembler.

Context `{Runtime}.

(** The fields of a snapshot that [createEchoResponse] returns, in terms
    of the parsed URL and of the result of [parseBody]. *)
Lemma createEchoResponse_inv (req : Request) (srv : Server) (w w' : World)
  (e : EchoResponse) :
  createEchoResponse req srv w = (Normal e, w') ->
  exists u pb,
    URL_parse (url req) = Some u
    /\ parseBody req w = (Normal pb, w')
    /\ er_body (request e) = parsed pb
    /\ er_bodyRaw (request e) = raw pb
    /\ er_path (request e) = pathname u
    /\ er_query (request e) = parseQuery u
    /\ es_hostname (server e) = hostname u
    /\ es_port (server e) = srv_port srv
    /\ er_contentLength (request e) =
         match Headers_get (headers req) "content-length" with
         | Some v => if Str.isEmpty v then None else Some (parseInt10 v)
         | None => None
         end.
Proof.
  unfold createEchoResponse, bind, lift, Date_now_iso, ret, throw.
  destruct (URL_parse (url req)) as [u |]; [| discriminate].
  destruct (parseBody req w) as [[pb | ex] w1] eqn:Hpb; [| discriminate].
  intros [= <- <-]. exists u, pb. simpl. repeat split; reflexivity.
Qed.

Lemma createEchoResponse_returns (req : Request) (srv : Server) (w : World) :
  wellFormed req ->
  exists e w', createEchoResponse req srv w = (Normal e, w').
Proof.
  intros [u Hu].
  destruct (parseBody_returns req w) as (pb & w' & Hpb).
  unfold createEchoResponse, bind, lift, Date_now_iso, ret.
  rewrite Hu, Hpb. eauto.
Qed.

(** The only exception of the assembler is the one of [new URL]. *)
Lemma createEchoResponse_throws (req : Request) (srv : Server) (w w' : World)
  (ex : Exception) :
  createEchoResponse req srv w = (Throw ex, w') ->
  URL_parse (url req) = None.
Proof.
  unfold createEchoResponse, bind, lift, Date_now_iso, ret, throw.
  destruct (URL_parse (url req)) as [u |]; [| done].
  destruct (parseBody_returns req w) as (pb & w1 & Hpb).
  rewrite Hpb. discriminate.
Qed.

End Assembler.

(** ** [parseInt] reads base-10 numerals *)

Lemma digitValue_digitChar (d : Z) :
  0 <= d <= 9 -> digitValue (digitChar d) = Some d.
Proof.
  intros Hd.
  assert (d = 0 \/ d = 1 \/ d = 2 \/ d = 3 \/ d = 4 \/ d = 5 \/ d = 6
          \/ d = 7 \/ d = 8 \/ d = 9) as Hcases by lia.
  repeat (destruct Hcases as [-> | Hcases]; [reflexivity |]).
  by subst.
Qed.

Lemma digitValue_inv (c : ascii) (d : Z) :
  digitValue c = Some d -> c = digitChar d /\ 0 <= d <= 9.
Proof.
  unfold digitValue, digitChar, Str.code.
  destruct (_ && _)%N eqn:Hrange; [| discriminate].
  intros [= <-].
  apply andb_true_iff in Hrange as [Hlo Hhi].
  apply N.leb_le in Hlo, Hhi.
  split; [| lia].
  replace (48 + Z.to_N (Z.of_N (N_of_ascii c) - 48))%N with (N_of_ascii c) by lia.
  by rewrite ascii_N_embedding.
Qed.

Lemma digit_not_space (c : ascii) (d : Z) :
  digitValue c = Some d -> isStrWhiteSpaceChar c = false.
Proof.
  unfold digitValue, isStrWhiteSpaceChar.
  destruct (_ && _)%N eqn:Hrange; [| discriminate]. intros _.
  apply andb_true_iff in Hrange as [Hlo Hhi].
  apply N.leb_le in Hlo, Hhi.
  repeat (apply orb_false_iff; split);
    [apply andb_false_iff; right; apply N.leb_gt; lia
    | apply N.eqb_neq; lia | apply N.eqb_neq; lia].
Qed.

Lemma of_list_app (a b : list ascii) :
  Str.of_list (a ++ b)%list = Str.of_list a ++ Str.of_list b.
Proof.
  induction a as [| c a IH]; [reflexivity |].
  change (Str.of_list ((c :: a) ++ b)%list)
    with (String c (Str.of_list (a ++ b)%list)).
  by rewrite IH.
Qed.

Lemma positional_snoc (ds : list Z) (d : Z) :
  positional (ds ++ [d])%list = 10 * positional ds + d.
Proof.
  induction ds as [| x ds IH]; simpl; [lia |].
  rewrite IH, length_app. simpl length.
  replace (Z.of_nat (length ds + 1)) with (Z.of_nat (length ds) + 1) by lia.
  rewrite Z.pow_add_r by lia. lia.
Qed.

(** The loop of [readDigits] on a digit sequence followed by [tail]. *)
Lemma readDigits_digits (ds : list Z) (tail : string) (acc : Z) (seen : bool) :
  Forall (fun d => 0 <= d <= 9) ds ->
  noDigitAhead tail ->
  readDigits (digitString ds ++ tail) acc seen =
    if seen || negb (bool_decide (ds = []))
    then Some (acc * 10 ^ Z.of_nat (length ds) + positional ds) else None.
Proof.
  intros Hds Htail. revert acc seen.
  induction Hds as [| d ds Hd Hds IH]; intros acc seen.
  - change (digitString [] ++ tail) with tail. simpl.
    rewrite orb_false_r, Z.mul_1_r, Z.add_0_r.
    destruct tail as [| c tail]; simpl; [done |].
    simpl in Htail. by rewrite Htail.
  - change (digitString (d :: ds) ++ tail)
      with (String (digitChar d) (digitString ds ++ tail)).
    simpl readDigits. rewrite (digitValue_digitChar d Hd), IH.
    rewrite orb_true_l, orb_true_r. f_equal.
    simpl positional. simpl length.
    replace (Z.of_nat (S (length ds))) with (Z.of_nat (length ds) + 1) by lia.
    rewrite Z.pow_add_r by lia. lia.
Qed.

(** Conversely, whatever [readDigits] returns was read from a digit
    sequence. *)
Lemma readDigits_inv (s : string) (acc : Z) (seen : bool) (r : Z) :
  readDigits s acc seen = Some r ->
  exists ds tail,
    s = digitString ds ++ tail
    /\ Forall (fun d => 0 <= d <= 9) ds
    /\ noDigitAhead tail
    /\ (seen = false -> ds <> [])
    /\ r = acc * 10 ^ Z.of_nat (length ds) + positional ds.
Proof.
  revert acc seen. induction s as [| c s IH]; intros acc seen; simpl.
  - destruct seen; [| discriminate]. intros [= <-].
    exists [], "". repeat split; [done | done | simpl; lia].
  - destruct (digitValue c) as [d |] eqn:Hc.
    + intros Hr. apply IH in Hr as (ds & tail & -> & Hds & Htail & _ & ->).
      apply digitValue_inv in Hc as [-> Hd].
      exists (d :: ds), tail. repeat split; [by constructor | done | done |].
      simpl positional. simpl length.
      replace (Z.of_nat (S (length ds))) with (Z.of_nat (length ds) + 1) by lia.
      rewrite Z.pow_add_r by lia. lia.
    + destruct seen; [| discriminate]. intros [= <-].
      exists [], (String c s). repeat split; [done | done | done | simpl; lia].
Qed.

Lemma trimStart_spaces (ws : list ascii) (s : string) :
  Forall (fun c => isStrWhiteSpaceChar c = true) ws ->
  trimStart (Str.of_list ws ++ s) = trimStart s.
Proof.
  induction 1 as [| c ws Hc Hws IH]; [reflexivity |].
  change (Str.of_list (c :: ws) ++ s) with (String c (Str.of_list ws ++ s)).
  simpl. by rewrite Hc.
Qed.

Lemma trimStart_inv (s : string) :
  exists ws,
    s = Str.of_list ws ++ trimStart s
    /\ Forall (fun c => isStrWhiteSpaceChar c = true) ws.
Proof.
  induction s as [| c s (ws & Hs & Hws)]; [by exists [] |].
  simpl. destruct (isStrWhiteSpaceChar c) eqn:Hc.
  - exists (c :: ws). split; [| by constructor].
    change (Str.of_list (c :: ws) ++ trimStart s)
      with (String c (Str.of_list ws ++ trimStart s)).
    by rewrite <- Hs.
  - by exists [].
Qed.

Lemma roundToDouble_exact (z : Z) :
  Z.abs z <= 2 ^ 53 -> roundToDouble z = Int z.
Proof.
  intros Hz. unfold roundToDouble.
  destruct (Z.ltb_spec (Z.abs z) (2 ^ 53)) as [Hlt | Hge]; [reflexivity |].
  assert (z = 2 ^ 53 \/ z = - 2 ^ 53) as [-> | ->] by lia; reflexivity.
Qed.

Lemma roundToDouble_not_NaN (z : Z) : roundToDouble z <> NaN.
Proof.
  unfold roundToDouble.
  destruct (Z.abs z <? 2 ^ 53); [discriminate |].
  cbv zeta. destruct (2 ^ 1024 <=? _); discriminate.
Qed.

(** The decomposition behind the rounding of [a >= 2^53]. *)
Lemma round_parts (a : Z) :
  2 ^ 53 <= a ->
  let e := Z.log2 a - 52 in
  let q := a / 2 ^ e in
  let r := a mod 2 ^ e in
  1 <= e /\ 2 ^ 52 <= q < 2 ^ 53 /\ 0 <= r < 2 ^ e /\ a = q * 2 ^ e + r
  /\ 2 ^ e = 2 * 2 ^ (e - 1).
Proof.
  intros Ha e q r.
  assert (Hlog : 53 <= Z.log2 a) by (apply Z.log2_le_pow2; lia).
  assert (He : 1 <= e) by (unfold e; lia).
  destruct (Z.log2_spec a ltac:(lia)) as [Hlo Hhi].
  assert (Hpe : 0 < 2 ^ e) by (apply Z.pow_pos_nonneg; lia).
  assert (Hsplit : 2 ^ Z.log2 a = 2 ^ 52 * 2 ^ e).
  { rewrite <- Z.pow_add_r by lia. f_equal. unfold e. lia. }
  assert (Hsplit' : 2 ^ Z.succ (Z.log2 a) = 2 ^ 53 * 2 ^ e).
  { rewrite <- Z.pow_add_r by lia. f_equal. unfold e. lia. }
  split; [exact He |]. split.
  - unfold q. split.
    + apply Z.div_le_lower_bound; lia.
    + apply Z.div_lt_upper_bound; lia.
  - split; [apply Z.mod_pos_bound; lia |]. split.
    + unfold q, r. rewrite Z.mul_comm. apply Z.div_mod. lia.
    + replace e with (1 + (e - 1)) at 1 by lia.
      rewrite Z.pow_add_r by lia. reflexivity.
Qed.

(** No representable integer lies strictly between two consecutive
    multiples of [2^e] that are at least [2^(52+e)]. *)
Lemma representable_gap (e q y : Z) :
  1 <= e -> 2 ^ 52 <= q ->
  representable y ->
  y <= q * 2 ^ e \/ (q + 1) * 2 ^ e <= y.
Proof.
  intros He Hq (m & k & -> & Hm & Hk).
  assert (Hpe : 0 < 2 ^ e) by (apply Z.pow_pos_nonneg; lia).
  assert (Hpk : 0 < 2 ^ k) by (apply Z.pow_pos_nonneg; lia).
  destruct (Z.le_gt_cases e k) as [Hek | Hke].
  - assert (Hsplit : 2 ^ k = 2 ^ (k - e) * 2 ^ e).
    { rewrite <- Z.pow_add_r by lia. f_equal. lia. }
    rewrite Hsplit, Z.mul_assoc.
    destruct (Z.le_gt_cases (m * 2 ^ (k - e)) q) as [Hle | Hgt].
    + left. apply Z.mul_le_mono_nonneg_r; lia.
    + right. apply Z.mul_le_mono_nonneg_r; lia.
  - left.
    assert (Hkh : 2 ^ k <= 2 ^ (e - 1)) by (apply Z.pow_le_mono_r; lia).
    assert (Hhalf : 2 ^ e = 2 * 2 ^ (e - 1)).
    { replace e with (1 + (e - 1)) at 1 by lia.
      rewrite Z.pow_add_r by lia. reflexivity. }
    assert (Hph : 0 < 2 ^ (e - 1)) by (apply Z.pow_pos_nonneg; lia).
    destruct (Z.le_gt_cases m 0) as [Hneg | Hpos].
    + assert (m * 2 ^ k <= 0) by (apply Z.mul_nonpos_nonneg; lia).
      assert (0 <= q * 2 ^ e) by (apply Z.mul_nonneg_nonneg; lia).
      lia.
    + assert (m * 2 ^ k <= 2 ^ 53 * 2 ^ (e - 1))
        by (apply Z.mul_le_mono_nonneg; lia).
      assert (2 ^ 52 * 2 ^ e <= q * 2 ^ e)
        by (apply Z.mul_le_mono_nonneg_r; lia).
      change (2 ^ 53) with (2 * 2 ^ 52) in *. lia.
Qed.

Lemma representable_opp (y : Z) : representable y -> representable (- y).
Proof.
  intros (m & k & -> & Hm & Hk). exists (- m), k.
  split. { lia. } split. { by rewrite Z.abs_opp. } exact Hk.
Qed.

(** The rounding of [a >= 2^53]: the multiple [v] of [2^e] that is chosen
    is at least as close to [a] as any representable integer, and is
    representable itself unless it reaches [2^1024]. *)
Lemma round_nearest (a : Z) :
  2 ^ 53 <= a ->
  let e := Z.log2 a - 52 in
  let q := a / 2 ^ e in
  let r := a mod 2 ^ e in
  let half := 2 ^ (e - 1) in
  let q' := if (half <? r) || ((r =? half) && Z.odd q) then q + 1 else q in
  let v := q' * 2 ^ e in
  (v < 2 ^ 1024 -> representable v)
  /\ (forall y, representable y -> Z.abs (a - v) <= Z.abs (a - y))
  /\ (2 ^ 1024 <= v -> 2 ^ 1024 - 2 ^ 970 <= a).
Proof.
  intros Ha e q r half q' v.
  destruct (round_parts a Ha) as (He & Hq & Hr & Hdecomp & Hhalf).
  fold e q r half in He, Hq, Hr, Hdecomp, Hhalf.
  assert (Hpe : 0 < 2 ^ e) by (apply Z.pow_pos_nonneg; lia).
  assert (Hq' : (q' = q /\ r <= half) \/ (q' = q + 1 /\ half <= r)).
  { unfold q'. destruct (Z.ltb_spec half r) as [Hlt | Hge]; simpl.
    - right. lia.
    - destruct (Z.eqb_spec r half) as [Heq | Hne]; simpl.
      + destruct (Z.odd q); [right | left]; lia.
      + left. lia. }
  split; [| split].
  - intros Hv. unfold v in Hv.
    destruct (Z.le_gt_cases e 971) as [Hle | Hgt].
    2:{ exfalso.
        assert (2 ^ 972 <= 2 ^ e) by (apply Z.pow_le_mono_r; lia).
        assert (2 ^ 52 * 2 ^ 972 <= q' * 2 ^ e)
          by (apply Z.mul_le_mono_nonneg; lia).
        change (2 ^ 52 * 2 ^ 972) with (2 ^ 1024) in *. lia. }
    destruct (Z.lt_ge_cases q' (2 ^ 53)) as [Hlt | Hge].
    + exists q', e. split; [reflexivity |]. split; lia.
    + assert (Hq53 : q' = 2 ^ 53) by lia.
      exists (2 ^ 52), (e + 1). split.
      * unfold v. rewrite Hq53, Z.pow_add_r by lia.
        change (2 ^ 53) with (2 ^ 52 * 2 ^ 1). lia.
      * split; [reflexivity |]. split; [lia |].
        destruct (Z.le_gt_cases 971 e) as [Hbig | Hsmall]; [exfalso | lia].
        assert (2 ^ 971 <= 2 ^ e) by (apply Z.pow_le_mono_r; lia).
        assert (2 ^ 53 * 2 ^ 971 <= q' * 2 ^ e)
          by (apply Z.mul_le_mono_nonneg; lia).
        change (2 ^ 53 * 2 ^ 971) with (2 ^ 1024) in *. lia.
  - intros y Hy.
    destruct (representable_gap e q y He ltac:(lia) Hy) as [Hlow | Hhigh];
      unfold v; destruct Hq' as [[-> Hrh] | [-> Hrh]]; lia.
  - intros Hv. unfold v in Hv.
    destruct (Z.le_gt_cases 972 e) as [Hbig | Hsmall].
    + assert (2 ^ 972 <= 2 ^ e) by (apply Z.pow_le_mono_r; lia).
      assert (2 ^ 52 * 2 ^ 972 <= q * 2 ^ e) by (apply Z.mul_le_mono_nonneg; lia).
      change (2 ^ 52 * 2 ^ 972) with (2 ^ 1024) in *.
      assert (0 <= 2 ^ 970) by (apply Z.pow_nonneg; lia). lia.
    + assert (Hpe' : 2 ^ e <= 2 ^ 971) by (apply Z.pow_le_mono_r; lia).
      assert (Hqe : q' * 2 ^ e <= 2 ^ 53 * 2 ^ 971)
        by (apply Z.mul_le_mono_nonneg; lia).
      change (2 ^ 53 * 2 ^ 971) with (2 ^ 1024) in Hqe.
      assert (Hveq : q' * 2 ^ e = 2 ^ 53 * 2 ^ 971)
        by (change (2 ^ 53 * 2 ^ 971) with (2 ^ 1024); lia).
      assert (Hq53 : q' = 2 ^ 53).
      { destruct (Z.lt_ge_cases q' (2 ^ 53)) as [Hlt | Hge]; [| lia].
        exfalso.
        assert (q' * 2 ^ e <= (2 ^ 53 - 1) * 2 ^ 971)
          by (apply Z.mul_le_mono_nonneg; lia).
        assert (0 < 2 ^ 971) by (apply Z.pow_pos_nonneg; lia). lia. }
      assert (He971 : 2 ^ e = 2 ^ 971).
      { rewrite Hq53 in Hveq. apply Z.mul_cancel_l in Hveq; [done | lia]. }
      assert (Hh : half = 2 ^ 970).
      { change (2 ^ 971) with (2 * 2 ^ 970) in He971. lia. }
      destruct Hq' as [[Hq1 _] | [Hq1 Hrh]]; [lia |].
      rewrite Hdecomp, He971.
      assert (q = 2 ^ 53 - 1) by lia. subst q'.
      change (2 ^ 1024) with (2 ^ 53 * 2 ^ 971).
      assert (0 < 2 ^ 970) by (apply Z.pow_pos_nonneg; lia).
      change (2 ^ 971) with (2 * 2 ^ 970) in *. lia.
Qed.

(** [roundToDouble] rounds to the nearest double: an integer result is
    representable and no representable integer is closer to [z]; the
    result is an infinity, of the sign of [z], only from
    [2^1024 - 2^970] on. *)
Lemma roundToDouble_nearest (z : Z) : nearestDouble z (roundToDouble z).
Proof.
  unfold nearestDouble, roundToDouble.
  destruct (Z.ltb_spec (Z.abs z) (2 ^ 53)) as [Hlt | Hge].
  - split.
    + exists z, 0. rewrite Z.mul_1_r. split; [done |]. split; lia.
    + intros y _. lia.
  - destruct (round_nearest (Z.abs z) Hge) as (Hrep & Hnear & Hinf).
    cbv zeta in *.
    match goal with
    | |- context [2 ^ 1024 <=? ?x] => set (v := x) in *
    end.
    destruct (Z.leb_spec (2 ^ 1024) v) as [Hbig | Hsmall].
    + split; [by apply Hinf | reflexivity].
    + specialize (Hrep Hsmall). split.
      * destruct (Z.sgn_spec z) as [[? ->] | [[? ->] | [? ->]]].
        -- by rewrite Z.mul_1_l.
        -- lia.
        -- replace (-1 * v) with (- v) by lia. by apply representable_opp.
      * intros y Hy.
        destruct (Z.sgn_spec z) as [[? ->] | [[? ->] | [? ->]]].
        -- specialize (Hnear y Hy). lia.
        -- lia.
        -- specialize (Hnear (- y) (representable_opp y Hy)). lia.
Qed.

Lemma splitSign_digit (c : ascii) (s : string) (d : Z) :
  digitValue c = Some d -> splitSign (String c s) = (1, String c s).
Proof.
  destruct c as [[] [] [] [] [] [] [] []]; try discriminate; reflexivity.
Qed.

(** [parseInt] returns the value of the numeral its argument starts
    with. *)
Lemma parseInt10_numeral (v : string) (z : Z) :
  numeral v z -> parseInt10 v = roundToDouble z.
Proof.
  intros (ws & sg & ds & tail & -> & Hws & Hne & Hds & Htail & ->).
  unfold parseInt10. rewrite (trimStart_spaces ws _ Hws).
  assert (Hread : forall acc seen,
             readDigits (digitString ds ++ tail) acc seen
             = Some (acc * 10 ^ Z.of_nat (length ds) + positional ds)).
  { intros acc seen. rewrite readDigits_digits by done.
    rewrite bool_decide_eq_false_2 by done. by rewrite orb_true_r. }
  destruct sg; simpl signText; rewrite ?app_nil_l.
  - destruct ds as [| d ds]; [done |].
    apply Forall_cons in Hds as Hd. destruct Hd as [Hd _].
    apply digitValue_digitChar in Hd.
    change (digitString (d :: ds) ++ tail)
      with (String (digitChar d) (digitString ds ++ tail)) in *.
    simpl trimStart. rewrite (digit_not_space _ d Hd).
    rewrite (splitSign_digit _ _ d Hd), Hread. f_equal; simpl signValue; lia.
  - set (rest := digitString ds ++ tail) in *.
    change (splitSign (trimStart ("+" ++ rest))) with (1, rest).
    cbv beta iota zeta. rewrite Hread. f_equal; simpl signValue; lia.
  - set (rest := digitString ds ++ tail) in *.
    change (splitSign (trimStart ("-" ++ rest))) with ((-1), rest).
    cbv beta iota zeta. rewrite Hread. f_equal; simpl signValue; lia.
Qed.

(** Conversely, a result other than [NaN] comes from a numeral, so a
    value without one gives [NaN]. *)
Lemma parseInt10_inv (v : string) :
  parseInt10 v <> NaN -> exists z, numeral v z.
Proof.
  unfold parseInt10.
  destruct (trimStart_inv v) as (ws & Hv & Hws).
  destruct (splitSign (trimStart v)) as [sign S1] eqn:Hsign.
  destruct (readDigits S1 0 false) as [r |] eqn:Hr; [| done].
  intros _.
  apply readDigits_inv in Hr as (ds & tail & -> & Hds & Htail & Hne & ->).
  assert (Hsg : exists sg, trimStart v = signText sg ++ digitString ds ++ tail
                           /\ sign = signValue sg).
  { unfold splitSign in Hsign.
    destruct (trimStart v) as [| c s]; [injection Hsign as <- <-; by exists NoSign |].
    destruct (ascii_dec c "-") as [-> | Hm].
    { injection Hsign as <- <-. by exists Minus. }
    destruct (ascii_dec c "+") as [-> | Hp].
    { injection Hsign as <- <-. by exists Plus. }
    exists NoSign.
    destruct c as [[] [] [] [] [] [] [] []];
      try (injection Hsign as <- <-; done); congruence. }
  destruct Hsg as (sg & Ht & ->).
  exists (signValue sg * positional ds), ws, sg, ds, tail. rewrite <- Ht.
  split_and!; eauto.
Qed.

Lemma parseInt10_NaN (v : string) :
  (forall z, ~ numeral v z) -> parseInt10 v = NaN.
Proof.
  intros Hv.
  destruct (parseInt10 v) eqn:Hp; [done | exfalso ..];
    (destruct (parseInt10_inv v) as [z' Hz]; [rewrite Hp; discriminate |]);
    by apply Hv in Hz.
Qed.

(** Within [2^53] the numeral is read exactly. *)
Lemma parseInt10_exact (v : string) (z : Z) :
  numeral v z -> Z.abs z <= 2 ^ 53 -> parseInt10 v = Int z.
Proof.
  intros Hz Hb. by rewrite (parseInt10_numeral v z Hz), roundToDouble_exact.
Qed.

(** ** Objects filled from a list of pairs *)

Lemma obj_assign_all_snoc (pairs : list (string * string)) (k v : string)
  (obj : gmap string string) :
  obj_assign_all (pairs ++ [(k, v)]) obj = obj_set k v (obj_assign_all pairs obj).
Proof. unfold obj_assign_all. by rewrite fold_left_app. Qed.

Lemma obj_set_lookup (k v key : string) (obj : gmap string string) :
  key <> "__proto__" ->
  obj_set k v obj !! key = if decide (k = key) then Some v else obj !! key.
Proof.
  intros Hkey. unfold obj_set.
  destruct (String.eqb_spec k "__proto__") as [-> | Hk].
  - by rewrite decide_False.
  - by rewrite lookup_insert.
Qed.

Lemma obj_set_proto (k v : string) (obj : gmap string string) :
  obj_set k v obj !! "__proto__" = obj !! "__proto__".
Proof.
  unfold obj_set. destruct (String.eqb_spec k "__proto__") as [-> | Hk]; [done |].
  by rewrite lookup_insert_ne.
Qed.

(** Last write wins: after the loop, a key other than ["__proto__"] holds
    the value of its last pair, or what the object held before when no
    pair has that key. *)
Lemma obj_assign_all_lookup (pairs : list (string * string)) (key : string)
  (obj : gmap string string) :
  key <> "__proto__" ->
  obj_assign_all pairs obj !! key
    = match lastValue key pairs with
      | Some v => Some v
      | None => obj !! key
      end.
Proof.
  intros Hkey. induction pairs as [| [k v] pairs IH] using rev_ind; [done |].
  rewrite obj_assign_all_snoc, obj_set_lookup by done.
  unfold lastValue in *. rewrite filter_app, filter_cons, filter_nil. simpl.
  destruct (decide (k = key)) as [-> | Hne].
  - by rewrite last_snoc.
  - by rewrite app_nil_r.
Qed.

(** A pair whose key is ["__proto__"] leaves no trace. *)
Lemma obj_assign_all_proto (pairs : list (string * string))
  (obj : gmap string string) :
  obj_assign_all pairs obj !! "__proto__" = obj !! "__proto__".
Proof.
  induction pairs as [| [k v] pairs IH] using rev_ind; [done |].
  by rewrite obj_assign_all_snoc, obj_set_proto.
Qed.

Lemma parseQuery_lookup (u : URL) (key : string) :
  key <> "__proto__" -> parseQuery u !! key = lastValue key (searchParams u).
Proof.
  intros Hkey. unfold parseQuery.
  rewrite obj_assign_all_lookup by done.
  by destruct (lastValue key (searchParams u)).
Qed.

Lemma parseQuery_empty (u : URL) : query u = "" -> parseQuery u = ∅.
Proof. intros Hq. unfold parseQuery, searchParams. by rewrite Hq. Qed.

(** ** The urlencoded parser on [key=value] pairs joined by [&] *)

Lemma to_list_cons (c : ascii) (s : string) :
  Str.to_list (String c s) = c :: Str.to_list s.
Proof. reflexivity. Qed.

Lemma to_list_app (a b : string) :
  Str.to_list (a ++ b) = (Str.to_list a ++ Str.to_list b)%list.
Proof.
  induction a as [| c a IH]; [reflexivity |].
  rewrite app_cons, !to_list_cons, IH. reflexivity.
Qed.

Lemma without_app (d : ascii) (a b : string) :
  without d (a ++ b) <-> without d a /\ without d b.
Proof. unfold without. rewrite to_list_app. apply Forall_app. Qed.

Lemma split_cons (d c : ascii) (s : string) :
  Str.split d (String c s) =
    if Ascii.eqb c d then EmptyString :: Str.split d s
    else match Str.split d s with
         | [] => [String c EmptyString]
         | p :: ps => String c p :: ps
         end.
Proof. reflexivity. Qed.

Lemma cut_cons (d c : ascii) (s : string) :
  Str.cut d (String c s) =
    if Ascii.eqb c d then Some (EmptyString, s)
    else match Str.cut d s with
         | Some (a, b) => Some (String c a, b)
         | None => None
         end.
Proof. reflexivity. Qed.

Lemma split_without (d : ascii) (a : string) :
  without d a -> Str.split d a = [a].
Proof.
  induction a as [| c a IH]; intros Ha; [reflexivity |].
  apply Forall_cons in Ha as [Hc Ha].
  rewrite split_cons, (IH Ha).
  by destruct (Ascii.eqb_spec c d).
Qed.

Lemma split_at (d : ascii) (a b : string) :
  without d a -> Str.split d (a ++ String d b) = a :: Str.split d b.
Proof.
  induction a as [| c a IH]; intros Ha.
  - rewrite app_nil_l, split_cons. by rewrite Ascii.eqb_refl.
  - apply Forall_cons in Ha as [Hc Ha].
    rewrite app_cons, split_cons, (IH Ha).
    by destruct (Ascii.eqb_spec c d).
Qed.

Lemma cut_at (d : ascii) (a b : string) :
  without d a -> Str.cut d (a ++ String d b) = Some (a, b).
Proof.
  induction a as [| c a IH]; intros Ha.
  - rewrite app_nil_l, cut_cons. by rewrite Ascii.eqb_refl.
  - apply Forall_cons in Ha as [Hc Ha].
    rewrite app_cons, cut_cons, (IH Ha).
    by destruct (Ascii.eqb_spec c d).
Qed.

Lemma join_cons (sep x : string) (l : list string) :
  l <> [] -> Str.join sep (x :: l) = x ++ sep ++ Str.join sep l.
Proof. by destruct l. Qed.

Lemma omap_cons {A B} (f : A -> option B) (x : A) (l : list A) :
  omap f (x :: l) = match f x with
                    | Some y => y :: omap f l
                    | None => omap f l
                    end.
Proof. reflexivity. Qed.

Lemma urlencoded_pair_plain (k v : string) :
  without "=" k ->
  urlencoded_pair (k ++ "=" ++ v) = Some (urlencoded_decode k, urlencoded_decode v).
Proof.
  intros Hk. unfold urlencoded_pair.
  change (k ++ "=" ++ v) with (k ++ String "=" v).
  rewrite cut_at by done.
  by destruct k.
Qed.

(** The parser returns the pairs of the text in order, each key and value
    decoded. *)
Lemma urlencoded_parse_formEncode (pairs : list (string * string)) :
  Forall plainPair pairs ->
  urlencoded_parse (formEncode pairs)
    = List.map (fun kv => (urlencoded_decode (fst kv), urlencoded_decode (snd kv)))
        pairs.
Proof.
  unfold urlencoded_parse, formEncode.
  induction 1 as [| [k v] pairs (Hk1 & Hk2 & Hv) Hpairs IH]; [reflexivity |].
  simpl fst in *. simpl snd in *.
  assert (Hkv : without "&" (k ++ "=" ++ v)).
  { apply without_app. split; [done |]. apply without_app. split; [| done].
    by repeat constructor. }
  rewrite (List.map_cons (fun kv => fst kv ++ "=" ++ snd kv) (k, v) pairs).
  simpl fst. simpl snd.
  destruct pairs as [| kv' pairs].
  - simpl List.map. simpl Str.join.
    rewrite (split_without _ _ Hkv). simpl omap.
    by rewrite urlencoded_pair_plain.
  - rewrite join_cons by done.
    change ("&" ++ ?x) with (String "&" x).
    rewrite (split_at _ _ _ Hkv), omap_cons, urlencoded_pair_plain by done.
    by rewrite IH.
Qed.

(** ** Percent-decoding inverts percent-encoding *)

Lemma percentDecode_byte (c : ascii) (rest : string) :
  percentDecode (percentEncodeByte c ++ rest) = String c (percentDecode rest).
Proof.
  destruct c as [[] [] [] [] [] [] [] []]; reflexivity.
Qed.

Lemma percentDecode_percentEncode (s : string) :
  percentDecode (percentEncode s) = s.
Proof.
  induction s as [| c s IH]; [reflexivity |].
  simpl percentEncode. by rewrite percentDecode_byte, IH.
Qed.

Lemma plusToSpace_percentEncode (s : string) :
  Str.map plusToSpace (percentEncode s) = percentEncode s.
Proof.
  induction s as [| c s IH]; [reflexivity |].
  simpl percentEncode.
  change (percentEncodeByte c ++ percentEncode s)
    with (String "%" (String (hexChar (Str.code c / 16))
            (String (hexChar (Str.code c mod 16)) (percentEncode s)))).
  simpl Str.map. rewrite IH.
  destruct c as [[] [] [] [] [] [] [] []]; reflexivity.
Qed.

(** The UTF-8 decoder keeps ASCII text as it is. *)
Lemma utf8_decode_ascii (s : string) :
  Forall (fun c => (Str.code c <= 127)%N) (Str.to_list s) ->
  utf8_decode_without_BOM s = s.
Proof.
  unfold utf8_decode_without_BOM.
  induction s as [| c s IH]; intros Hs; [reflexivity |].
  apply Forall_cons in Hs as [Hc Hs].
  simpl utf8_decode. unfold utf8_start, utf8_lead.
  apply N.leb_le in Hc. rewrite Hc.
  by rewrite app_cons, app_nil_l, (IH Hs).
Qed.

(** A key or value sent percent-encoded byte by byte is received as it
    was, when it is ASCII text. *)
Lemma urlencoded_decode_percentEncode (s : string) :
  Forall (fun c => (Str.code c <= 127)%N) (Str.to_list s) ->
  urlencoded_decode (percentEncode s) = s.
Proof.
  intros Hs. unfold urlencoded_decode.
  by rewrite plusToSpace_percentEncode, percentDecode_percentEncode,
    utf8_decode_ascii.
Qed.

Lemma URLSearchParams_new_drop (t : string) :
  URLSearchParams_new t = urlencoded_parse (dropQuestionMark t).
Proof. reflexivity. Qed.

Lemma URLSearchParams_new_formEncode (pairs : list (string * string)) :
  Forall plainPair pairs ->
  String.prefix "?" (formEncode pairs) = false ->
  URLSearchParams_new (formEncode pairs) = decodePairs pairs.
Proof.
  intros Hpairs Hq. unfold URLSearchParams_new, decodePairs.
  rewrite <- (urlencoded_parse_formEncode pairs Hpairs).
  destruct (formEncode pairs) as [| c rest]; [reflexivity |].
  destruct (Ascii.eqb_spec c "?") as [-> | Hc]; [| reflexivity].
  by destruct rest.
Qed.

(** The snapshot's server identity: the hostname is read from the
    request's URL, the port from the server context. *)
Lemma snapshot_server_identity `{Runtime}
  (req : Request) (srv : Server) (w w' : World) (e : EchoResponse) :
  createEchoResponse req srv w = (Normal e, w') ->
  exists u, URL_parse (url req) = Some u
            /\ es_hostname (server e) = hostname u
            /\ es_port (server e) = srv_port srv.
Proof.
  intros He.
  apply createEchoResponse_inv in He
    as (u & pb & Hu & _ & _ & _ & _ & _ & Hh & Hp & _).
  by exists u.
Qed.

(** ** The cases of [src/echo-handler.test.ts], run through the model *)

Example test_parseBody_get :
  fst (parseBody (mkRequest "GET" "http://localhost/test" [] NoBody) world0)
  = Normal {| parsed := Null; raw := None |}.
Proof. reflexivity. Qed.

Example test_parseBody_head :
  fst (parseBody (mkRequest "HEAD" "http://localhost/test" [] NoBody) world0)
  = Normal {| parsed := Null; raw := None |}.
Proof. reflexivity. Qed.

Example test_parseBody_json :
  fst (parseBody postJson world0)
  = Normal {| parsed := Obj [("name", Text "test"); ("value", Num (Int 123))];
              raw := Some (json "{'name':'test','value':123}") |}.
Proof. vm_compute. reflexivity. Qed.

Example test_parseBody_invalid_json :
  fst (parseBody postInvalidJson world0)
  = Normal {| parsed := Null; raw := Some "invalid json {" |}.
Proof. vm_compute. reflexivity. Qed.

Example test_parseBody_form :
  fst (parseBody postForm world0)
  = Normal {| parsed := Rec {[ "name" := "test"; "value" := "123" ]};
              raw := Some "name=test&value=123" |}.
Proof. vm_compute. reflexivity. Qed.

Example test_parseBody_plain :
  fst (parseBody postPlain world0)
  = Normal {| parsed := Null; raw := Some "Hello World" |}.
Proof. vm_compute. reflexivity. Qed.

Example test_parseBody_empty :
  fst (parseBody postEmpty world0) = Normal {| parsed := Null; raw := None |}.
Proof. reflexivity. Qed.

Example test_parseQuery :
  parseQuery <$> URL_parse "http://localhost/test?foo=bar&baz=qux"
  = Some {[ "foo" := "bar"; "baz" := "qux" ]}.
Proof. vm_compute. reflexivity. Qed.

Example test_parseQuery_empty :
  parseQuery <$> URL_parse "http://localhost/test" = Some ∅.
Proof. reflexivity. Qed.

Example test_parseQuery_special :
  parseQuery <$> URL_parse "http://localhost/test?message=hello%20world&symbol=%26"
  = Some {[ "message" := "hello world"; "symbol" := "&" ]}.
Proof. vm_compute. reflexivity. Qed.

Example test_parseQuery_repeated :
  parseQuery <$> URL_parse "http://localhost/test?a=1&a=2" = Some {[ "a" := "2" ]}.
Proof. vm_compute. reflexivity. Qed.

Example test_parseHeaders :
  parseHeaders [("Content-Type", "application/json");
                ("X-Custom-Header", "custom-value")]
  = {[ "content-type" := "application/json";
       "x-custom-header" := "custom-value" ]}.
Proof. vm_compute. reflexivity. Qed.

Example test_parseHeaders_empty : parseHeaders [] = ∅.
Proof. reflexivity. Qed.

Example test_path_and_query :
  (fun u => (pathname u, parseQuery u))
    <$> URL_parse "http://localhost/api/users/123?page=1"
  = Some ("/api/users/123", {[ "page" := "1" ]}).
Proof. vm_compute. reflexivity. Qed.

(** The content-type test is case-sensitive. *)
Example test_content_type_case :
  fst (parseBody
         (mkRequest "POST" "http://localhost/test"
            [("Content-Type", "Application/JSON")] (BodyText "[]"))
         world0)
  = Normal {| parsed := Null; raw := Some "[]" |}.
Proof. vm_compute. reflexivity. Qed.

(** A body that was already consumed, or whose stream fails, reads as
    nothing. *)
Example test_parseBody_body_used :
  fst (parseBody postJson {| bodyUsed := true; textCalls := 1; now := 0 |})
  = Normal {| parsed := Null; raw := None |}.
Proof. reflexivity. Qed.

Example test_parseBody_stream_error :
  fst (parseBody (mkRequest "POST" "http://localhost/test" [] BodyError) world0)
  = Normal {| parsed := Null; raw := None |}.
Proof. reflexivity. Qed.

(** The [NaN] of a non-numeric content length is written as [null] in
    the response text. *)
Example test_NaN_written_as_null :
  exists resp w',
    handleRequest postBadLength server0 world0 = (Normal resp, w')
    /\ Str.includes (resp_body resp) (Render.quote "contentLength" ++ ": null")
       = true.
Proof. eexists _, _. split; vm_compute; reflexivity. Qed.

Example test_parseInt :
  List.map parseInt10 ["27"; " 42"; "-5"; "+7"; "12abc"; "1e3"; "12.5"; "abc"; "-"; " "]
  = [Int 27; Int 42; Int (-5); Int 7; Int 12; Int 1; Int 12; NaN; NaN; NaN].
Proof. reflexivity. Qed.

(** Beyond [2^53], [parseInt] rounds to the nearest double. *)
Example test_parseInt_rounds :
  List.map parseInt10
    ["9007199254740992"; "9007199254740993"; "-9007199254740995";
     "99999999999999999999999"]
  = [Int 9007199254740992; Int 9007199254740992; Int (-9007199254740996);
     Int 99999999999999991611392].
Proof. vm_compute. reflexivity. Qed.

Example test_parseInt_overflows :
  parseInt10 (Str.of_list (repeat "9"%char 400)) = Infinity false.
Proof. vm_compute. reflexivity. Qed.

Example test_URL_parse_rejects :
  List.map URL_parse ["/api/data"; "http://localhost:99999/api/data"; "http:///x"]
  = [None; None; None].
Proof. reflexivity. Qed.

(** [handleRequest] throws only when the request's URL does not parse. *)
Lemma handleRequest_throws `{Runtime}
  (req : Request) (srv : Server) (w w' : World) (ex : Exception) :
  handleRequest req srv w = (Throw ex, w') -> URL_parse (url req) = None.
Proof.
  unfold handleRequest, bind, ret.
  destruct (createEchoResponse req srv w) as [[e | ex'] w1] eqn:He; [discriminate |].
  intros _. by eapply createEchoResponse_throws.
Qed.


(** * The claims *)

(** C1. For a request whose method is GET, HEAD or OPTIONS, [parseBody]
    returns [{parsed: null, raw: null}] and leaves the world as it was: in
    particular [request.text()] was not called and the body stream is not
    consumed, whatever body the request carries. Every snapshot built for
    such a request has [body] and [bodyRaw] null, and one is built whenever
    the request's URL parses. *)
Theorem C1_bodyless_methods_skip_body `{Runtime}
  (req : Request) (srv : Server) (w : World) :
  bodyless (method req) ->
  parseBody req w = (Normal {| parsed := Null; raw := None |}, w)
  /\ textCalls (snd (parseBody req w)) = textCalls w
  /\ (forall e w', createEchoResponse req srv w = (Normal e, w') ->
        er_body (request e) = Null /\ er_bodyRaw (request e) = None /\ w' = w)
  /\ (wellFormed req ->
        exists e, createEchoResponse req srv w = (Normal e, w)).
Proof.
  intros Hm.
  pose proof (parseBody_bodyless req w Hm) as Hpb. unfold nullBody in Hpb.
  split; [exact Hpb |]. split; [by rewrite Hpb |]. split.
  - intros e w' He.
    apply createEchoResponse_inv in He
      as (u & pb & _ & Hpb' & Hb & Hr & _).
    rewrite Hpb in Hpb'. injection Hpb' as <- <-.
    by rewrite Hb, Hr.
  - intros Hwf.
    destruct (createEchoResponse_returns req srv w Hwf) as (e & w' & He).
    pose proof He as He'.
    apply createEchoResponse_inv in He' as (u & pb & _ & Hpb' & _).
    rewrite Hpb in Hpb'. injection Hpb' as <- <-. eauto.
Qed.

Lemma C1_bodyless_methods_skip_body_witness :
  bodyless (method getWithBody)
  /\ wellFormed getWithBody
  /\ parseBody getWithBody world0
       = (Normal {| parsed := Null; raw := None |}, world0)
  /\ textCalls (snd (parseBody getWithBody world0)) = 0%nat
  /\ exists e,
       createEchoResponse getWithBody server0 world0 = (Normal e, world0)
       /\ er_body (request e) = Null
       /\ er_bodyRaw (request e) = None.
Proof.
  assert (Hm : bodyless (method getWithBody)) by (left; reflexivity).
  assert (Hwf : wellFormed getWithBody) by (eexists; vm_compute; reflexivity).
  destruct (C1_bodyless_methods_skip_body getWithBody server0 world0 Hm)
    as (Hpb & Hcalls & Hall & Hex).
  split; [exact Hm |]. split; [exact Hwf |]. split; [exact Hpb |].
  split; [exact Hcalls |].
  destruct (Hex Hwf) as [e He]. exists e.
  destruct (Hall e world0 He) as (Hb & Hr & _). by split.
Defined.

(** C2, as amended. For a request whose method is not GET, HEAD or
    OPTIONS, whose body reads as a non-empty text [t] and whose
    content-type header contains ["application/json"]: when [t] is valid
    JSON, [parseBody] returns the decoded value as [parsed] and [t] as
    [raw]; when it is not, it returns [parsed] null and [raw] equal to
    [t]. In both cases it returns, it does not throw. *)
Theorem C2_json_body `{Runtime}
  (req : Request) (w w' : World) (t ct : string) :
  ~ bodyless (method req) ->
  Request_text req w = (Normal t, w') ->
  t <> "" ->
  Headers_get (headers req) "content-type" = Some ct ->
  contains ct "application/json" ->
  (forall v, JSON_parse t = Some v ->
     parseBody req w = (Normal {| parsed := v; raw := Some t |}, w'))
  /\ (JSON_parse t = None ->
     parseBody req w = (Normal {| parsed := Null; raw := Some t |}, w')).
Proof.
  intros Hm Ht Hne Hct Hjson.
  rewrite (parseBody_read req w w' t Hm Ht), Hct. unfold classify.
  rewrite (isEmpty_false t Hne). simpl.
  apply includes_spec in Hjson. rewrite Hjson.
  split; [intros v Hv | intros Hv]; by rewrite Hv.
Qed.

(** C2 as stated fails on a request that the method gate stops: an
    OPTIONS request with a JSON content type and a valid JSON body gets
    [{parsed: null, raw: null}]. *)
Lemma C2_counterexample :
  body optionsJson = BodyText (json "{'a': 1}")
  /\ Headers_get (headers optionsJson) "content-type" = Some "application/json"
  /\ contains "application/json" "application/json"
  /\ JSON_parse (json "{'a': 1}") = Some (Obj [("a", Num (Int 1))])
  /\ parseBody optionsJson world0
       = (Normal {| parsed := Null; raw := None |}, world0)
  /\ fst (parseBody optionsJson world0)
       <> Normal {| parsed := Obj [("a", Num (Int 1))];
                    raw := Some (json "{'a': 1}") |}.
Proof.
  split; [reflexivity |]. split; [reflexivity |].
  split; [by exists "", "" |]. split; [vm_compute; reflexivity |].
  split; [reflexivity |]. vm_compute. discriminate.
Qed.

Lemma C2_json_body_witness :
  ~ bodyless (method postJson)
  /\ Request_text postJson world0
       = (Normal (json "{'name':'test','value':123}"),
          {| bodyUsed := true; textCalls := 1; now := now world0 |})
  /\ json "{'name':'test','value':123}" <> ""
  /\ Headers_get (headers postJson) "content-type" = Some "application/json"
  /\ contains "application/json" "application/json"
  /\ JSON_parse (json "{'name':'test','value':123}")
       = Some (Obj [("name", Text "test"); ("value", Num (Int 123))])
  /\ parseBody postJson world0
       = (Normal {| parsed := Obj [("name", Text "test"); ("value", Num (Int 123))];
                    raw := Some (json "{'name':'test','value':123}") |},
          {| bodyUsed := true; textCalls := 1; now := now world0 |}).
Proof.
  assert (Hm : ~ bodyless (method postJson)).
  { intros [Hm | [Hm | Hm]]; discriminate Hm. }
  assert (Hne : json "{'name':'test','value':123}" <> "") by discriminate.
  assert (Hc : contains "application/json" "application/json")
    by (by exists "", "").
  assert (Hv : JSON_parse (json "{'name':'test','value':123}")
               = Some (Obj [("name", Text "test"); ("value", Num (Int 123))]))
    by (vm_compute; reflexivity).
  repeat (split; [first [exact Hm | exact Hne | exact Hc | exact Hv | reflexivity] |]).
  exact (proj1 (C2_json_body postJson world0 _ _ _ Hm eq_refl Hne eq_refl Hc) _ Hv).
Defined.




(** C4, evaluated on the request of the README. The server is bound to
    [0.0.0.0:3000] and the request is sent to
    [http://localhost:3000/api/data?foo=bar]: the snapshot's
    [server.port] is the port of the server context, but its
    [server.hostname] is [localhost], the host of the request's URL, not
    the [0.0.0.0] of the server context. *)
Theorem C4_hostname_from_request_url :
  exists e w',
    createEchoResponse readmePost server0 world0 = (Normal e, w')
    /\ srv_hostname server0 = "0.0.0.0"
    /\ es_hostname (server e) = "localhost"
    /\ es_hostname (server e) <> srv_hostname server0
    /\ es_port (server e) = srv_port server0.
Proof.
  eexists _, _. split; [vm_compute; reflexivity |].
  split; [reflexivity |]. split; [reflexivity |]. split; [discriminate | reflexivity].
Qed.

(** C5. [parseBody] always returns, and in its result [raw] null implies
    [parsed] null, and [parsed] non-null implies [raw] non-null; the same
    holds of [bodyRaw] and [body] in every snapshot that
    [createEchoResponse] returns. *)
Theorem C5_body_needs_bodyRaw `{Runtime}
  (req : Request) (srv : Server) (w : World) :
  (exists pb w', parseBody req w = (Normal pb, w')
     /\ (raw pb = None -> parsed pb = Null)
     /\ (parsed pb <> Null -> raw pb <> None))
  /\ (forall e w', createEchoResponse req srv w = (Normal e, w') ->
        (er_bodyRaw (request e) = None -> er_body (request e) = Null)
        /\ (er_body (request e) <> Null -> er_bodyRaw (request e) <> None)).
Proof.
  assert (Hpb : exists pb w', parseBody req w = (Normal pb, w')
                  /\ (raw pb = None -> parsed pb = Null)).
  { destruct (decide (bodyless (method req))) as [Hm | Hm].
    - exists nullBody, w. split; [by apply parseBody_bodyless | done].
    - destruct (Request_text req w) as [[t | ex] w'] eqn:Ht.
      + eexists _, w'. split; [by apply parseBody_read |].
        unfold classify.
        destruct (Str.isEmpty t); [done |].
        destruct (from_option _ false _); [simpl; discriminate |].
        destruct (from_option _ false _); simpl; [discriminate | done].
      + exists nullBody, w'. split; [by eapply parseBody_read_fails | done]. }
  destruct Hpb as (pb & w1 & Hpb & Hinv).
  split.
  - exists pb, w1. split; [done |]. split; [done |].
    intros Hp Hr. by apply Hp, Hinv.
  - intros e w' He.
    apply createEchoResponse_inv in He as (u & pb' & _ & Hpb' & Hb & Hr & _).
    rewrite Hpb in Hpb'. injection Hpb' as <- <-.
    rewrite Hb, Hr. split; [done |].
    intros Hp Hraw. by apply Hp, Hinv.
Qed.

Lemma C5_body_needs_bodyRaw_witness :
  exists e w',
    createEchoResponse postJson server0 world0 = (Normal e, w')
    /\ er_body (request e)
         = Obj [("name", Text "test"); ("value", Num (Int 123))]
    /\ (er_bodyRaw (request e) = None -> er_body (request e) = Null)
    /\ (er_body (request e) <> Null -> er_bodyRaw (request e) <> None).
Proof.
  eexists _, _. split; [vm_compute; reflexivity |]. split; [reflexivity |].
  eapply (proj2 (C5_body_needs_bodyRaw postJson server0 world0)).
  vm_compute; reflexivity.
Defined.

(** C6, as amended. For a request whose method is not GET, HEAD or
    OPTIONS, whose body reads as a non-empty text [t] and whose
    content-type header contains ["application/x-www-form-urlencoded"]
    and does not contain ["application/json"], [parseBody] returns [t] as
    [raw] and a string record as [parsed]. When [t], one leading [?] not
    counted, is [k1=v1&k2=v2&...], every key of the record other than
    ["__proto__"] holds the value of the last pair with that key among
    the pairs [(ki, vi)], each key and value percent-decoded, in order.
    For any [t], the same holds of the pairs that [new URLSearchParams(t)]
    yields. *)
Theorem C6_form_body `{Runtime}
  (req : Request) (w w' : World) (t ct : string) :
  ~ bodyless (method req) ->
  Request_text req w = (Normal t, w') ->
  t <> "" ->
  Headers_get (headers req) "content-type" = Some ct ->
  ~ contains ct "application/json" ->
  contains ct "application/x-www-form-urlencoded" ->
  exists m : gmap string string,
    parseBody req w = (Normal {| parsed := Rec m; raw := Some t |}, w')
    /\ (forall pairs,
          Forall plainPair pairs ->
          dropQuestionMark t = formEncode pairs ->
          forall k, k <> "__proto__" ->
            m !! k = lastValue k (decodePairs pairs))
    /\ (forall k, k <> "__proto__" ->
          m !! k = lastValue k (URLSearchParams_new t)).
Proof.
  intros Hm Ht Hne Hct Hjson Hform.
  rewrite (parseBody_read req w w' t Hm Ht), Hct. unfold classify.
  rewrite (isEmpty_false t Hne). simpl.
  apply includes_false in Hjson. apply includes_spec in Hform.
  rewrite Hjson, Hform.
  eexists. split; [reflexivity |].
  assert (Hlast : forall k, k <> "__proto__" ->
            obj_assign_all (URLSearchParams_new t) ∅ !! k
            = lastValue k (URLSearchParams_new t)).
  { intros k Hk. rewrite obj_assign_all_lookup by done.
    by destruct (lastValue k (URLSearchParams_new t)). }
  split; [| exact Hlast].
  intros pairs Hpairs Hq k Hk.
  rewrite Hlast by done.
  by rewrite URLSearchParams_new_drop, Hq, (urlencoded_parse_formEncode pairs Hpairs).
Qed.

(** C6 as stated fails in four ways: the method gate stops an OPTIONS
    request; a content type that also contains ["application/json"] sends
    the body to the JSON branch; a pair whose key is ["__proto__"] is
    missing from the record; and a leading [?] of the body is dropped, so
    that the body [?a=1&b=2] gives the key [a], not [?a]. *)
Lemma C6_counterexample :
  (contains "application/x-www-form-urlencoded" "application/x-www-form-urlencoded"
   /\ parseBody optionsForm world0
        = (Normal {| parsed := Null; raw := None |}, world0))
  /\ (contains bothTypes "application/x-www-form-urlencoded"
      /\ fst (parseBody postBoth world0)
           = Normal {| parsed := Null; raw := Some "a=1" |})
  /\ (URLSearchParams_new "__proto__=x&a=1" = [("__proto__", "x"); ("a", "1")]
      /\ fst (parseBody postFormProto world0)
           = Normal {| parsed := Rec {[ "a" := "1" ]};
                       raw := Some "__proto__=x&a=1" |}
      /\ ({[ "a" := "1" ]} : gmap string string) !! "__proto__" = None)
  /\ ("?a=1&b=2" = formEncode [("?a", "1"); ("b", "2")]
      /\ fst (parseBody postFormQuestionMark world0)
           = Normal {| parsed := Rec {[ "a" := "1"; "b" := "2" ]};
                       raw := Some "?a=1&b=2" |}
      /\ ({[ "a" := "1"; "b" := "2" ]} : gmap string string) !! "?a" = None).
Proof.
  split; [split; [by exists "", "" | reflexivity] |].
  split; [split; [by exists "application/json, ", "" | vm_compute; reflexivity] |].
  split; [split; [vm_compute; reflexivity |];
          split; [vm_compute; reflexivity | reflexivity] |].
  split; [reflexivity |].
  split; [vm_compute; reflexivity | reflexivity].
Qed.

Lemma C6_form_body_witness :
  ~ bodyless (method postFormQuestionMark)
  /\ Request_text postFormQuestionMark world0
       = (Normal "?a=1&b=2",
          {| bodyUsed := true; textCalls := 1; now := now world0 |})
  /\ "?a=1&b=2" <> ""
  /\ Headers_get (headers postFormQuestionMark) "content-type"
       = Some "application/x-www-form-urlencoded"
  /\ ~ contains "application/x-www-form-urlencoded" "application/json"
  /\ contains "application/x-www-form-urlencoded" "application/x-www-form-urlencoded"
  /\ Forall plainPair [("a", "1"); ("b", "2")]
  /\ dropQuestionMark "?a=1&b=2" = formEncode [("a", "1"); ("b", "2")]
  /\ exists m : gmap string string,
       parseBody postFormQuestionMark world0
         = (Normal {| parsed := Rec m; raw := Some "?a=1&b=2" |},
            {| bodyUsed := true; textCalls := 1; now := now world0 |})
       /\ m !! "a" = lastValue "a" (decodePairs [("a", "1"); ("b", "2")])
       /\ m !! "a" = Some "1"
       /\ m !! "b" = Some "2".
Proof.
  assert (Hm : ~ bodyless (method postFormQuestionMark)).
  { intros [Hm | [Hm | Hm]]; discriminate Hm. }
  assert (Hne : "?a=1&b=2" <> "") by discriminate.
  assert (Hj : ~ contains "application/x-www-form-urlencoded" "application/json")
    by (by apply includes_false).
  assert (Hf : contains "application/x-www-form-urlencoded"
                 "application/x-www-form-urlencoded")
    by (by exists "", "").
  assert (Hp : Forall plainPair [("a", "1"); ("b", "2")]).
  { repeat constructor; discriminate. }
  repeat (split; [first [exact Hm | exact Hne | exact Hj | exact Hf | exact Hp
                        | reflexivity] |]).
  destruct (C6_form_body postFormQuestionMark world0 _ _ _ Hm eq_refl Hne eq_refl Hj Hf)
    as (m & Hpb & Hpairs & Hlast).
  exists m. split; [exact Hpb |].
  split; [apply Hpairs; [exact Hp | reflexivity | discriminate] |].
  split; rewrite Hlast by discriminate; reflexivity.
Defined.

(** C7, evaluated on [http://localhost/test?__proto__=x&a=1]. The URL's
    parameter list has the two pairs, in order; the mapping returned by
    [parseQuery] holds only [a]: the pair whose key is ["__proto__"] is
    lost, although it is the last (and only) occurrence of its key. *)
Theorem C7_proto_key_dropped :
  exists u,
    URL_parse "http://localhost/test?__proto__=x&a=1" = Some u
    /\ searchParams u = [("__proto__", "x"); ("a", "1")]
    /\ lastValue "__proto__" (searchParams u) = Some "x"
    /\ parseQuery u = {[ "a" := "1" ]}
    /\ parseQuery u !! "__proto__" = None.
Proof.
  eexists. split; [vm_compute; reflexivity |].
  split; [vm_compute; reflexivity |].
  split; [vm_compute; reflexivity |].
  split; [vm_compute; reflexivity | reflexivity].
Qed.

(** C8, evaluated on two requests that reach the handler. A request
    received without a [Host] header has the bare target [/api/data] as
    its [url], and a request received with [Host: localhost:99999] has
    [http://localhost:99999/api/data]. In both cases
    [new URL(request.url)] throws, nothing catches it, and
    [handleRequest] throws a [TypeError]: there is no response with
    status 200. *)
Theorem C8_unparsable_url_throws :
  (exists msg,
     handleRequest noHostRequest server0 world0 = (Throw (TypeError msg), world0))
  /\ (exists msg,
        handleRequest badPortRequest server0 world0
          = (Throw (TypeError msg), world0))
  /\ (forall resp w',
        handleRequest noHostRequest server0 world0 <> (Normal resp, w'))
  /\ (forall resp w',
        handleRequest badPortRequest server0 world0 <> (Normal resp, w')).
Proof.
  split; [eexists; vm_compute; reflexivity |].
  split; [eexists; vm_compute; reflexivity |].
  split; intros resp w' Hr; vm_compute in Hr; discriminate Hr.
Qed.

(** C9. Whatever the method, a request whose body reads as the empty text
    gets [{parsed: null, raw: null}] from [parseBody]. *)
Theorem C9_empty_body `{Runtime} (req : Request) (w w' : World) :
  Request_text req w = (Normal "", w') ->
  fst (parseBody req w) = Normal {| parsed := Null; raw := None |}.
Proof.
  intros Ht.
  destruct (decide (bodyless (method req))) as [Hm | Hm].
  - by rewrite parseBody_bodyless.
  - by rewrite (parseBody_read req w w' "" Hm Ht).
Qed.

Lemma C9_empty_body_witness :
  Request_text postEmpty world0
    = (Normal "", {| bodyUsed := true; textCalls := 1; now := now world0 |})
  /\ fst (parseBody postEmpty world0) = Normal {| parsed := Null; raw := None |}.
Proof.
  assert (Ht : Request_text postEmpty world0
               = (Normal "", {| bodyUsed := true; textCalls := 1;
                                now := now world0 |})) by reflexivity.
  split; [exact Ht |].
  exact (C9_empty_body postEmpty world0 _ Ht).
Defined.

(** C10, as amended. For a request whose method is not GET, HEAD or
    OPTIONS, whose body reads as a non-empty text [t] and whose
    content-type header contains both ["application/json"] and
    ["application/x-www-form-urlencoded"], the JSON test comes first:
    [parsed] is the JSON value of [t], or null when [t] is not JSON, and
    [raw] is [t]; the form decoding of [t] plays no part. *)
Theorem C10_json_before_form `{Runtime}
  (req : Request) (w w' : World) (t ct : string) :
  ~ bodyless (method req) ->
  Request_text req w = (Normal t, w') ->
  t <> "" ->
  Headers_get (headers req) "content-type" = Some ct ->
  contains ct "application/json" ->
  contains ct "application/x-www-form-urlencoded" ->
  parseBody req w
    = (Normal {| parsed := default Null (JSON_parse t); raw := Some t |}, w').
Proof.
  intros Hm Ht Hne Hct Hjson _.
  rewrite (parseBody_read req w w' t Hm Ht), Hct. unfold classify.
  rewrite (isEmpty_false t Hne). simpl.
  apply includes_spec in Hjson. by rewrite Hjson.
Qed.

(** C10 as stated fails on a request that the method gate stops: the body
    of an OPTIONS request is not interpreted at all. *)
Lemma C10_counterexample :
  body optionsBoth = BodyText "a=1"
  /\ Headers_get (headers optionsBoth) "content-type" = Some bothTypes
  /\ contains bothTypes "application/json"
  /\ contains bothTypes "application/x-www-form-urlencoded"
  /\ parseBody optionsBoth world0
       = (Normal {| parsed := Null; raw := None |}, world0)
  /\ fst (parseBody optionsBoth world0)
       <> Normal {| parsed := default Null (JSON_parse "a=1");
                    raw := Some "a=1" |}.
Proof.
  split; [reflexivity |]. split; [reflexivity |].
  split; [by exists "", ", application/x-www-form-urlencoded" |].
  split; [by exists "application/json, ", "" |].
  split; [reflexivity |]. vm_compute. discriminate.
Qed.

Lemma C10_json_before_form_witness :
  ~ bodyless (method postBoth)
  /\ Request_text postBoth world0
       = (Normal "a=1", {| bodyUsed := true; textCalls := 1; now := now world0 |})
  /\ "a=1" <> ""
  /\ Headers_get (headers postBoth) "content-type" = Some bothTypes
  /\ contains bothTypes "application/json"
  /\ contains bothTypes "application/x-www-form-urlencoded"
  /\ parseBody postBoth world0
       = (Normal {| parsed := default Null (JSON_parse "a=1"); raw := Some "a=1" |},
          {| bodyUsed := true; textCalls := 1; now := now world0 |}).
Proof.
  assert (Hm : ~ bodyless (method postBoth)).
  { intros [Hm | [Hm | Hm]]; discriminate Hm. }
  assert (Hne : "a=1" <> "") by discriminate.
  assert (Hj : contains bothTypes "application/json")
    by (by exists "", ", application/x-www-form-urlencoded").
  assert (Hf : contains bothTypes "application/x-www-form-urlencoded")
    by (by exists "application/json, ", "").
  repeat (split; [first [exact Hm | exact Hne | exact Hj | exact Hf | reflexivity] |]).
  exact (C10_json_before_form postBoth world0 _ _ _ Hm eq_refl Hne eq_refl Hj Hf).
Defined.

(** * Further properties of the code *)

(** ** Supporting lemmas *)

(** The three ways [parseBody] comes to its result. *)
Lemma parseBody_cases `{Runtime} (req : Request) (w w' : World) (pb : ParsedBody) :
  parseBody req w = (Normal pb, w') ->
  (bodyless (method req) /\ pb = nullBody /\ w' = w)
  \/ (~ bodyless (method req)
      /\ exists t, Request_text req w = (Normal t, w')
                   /\ pb = classify (Headers_get (headers req) "content-type") t)
  \/ (~ bodyless (method req)
      /\ pb = nullBody
      /\ exists ex, Request_text req w = (Throw ex, w')).
Proof.
  intros Hpb.
  destruct (decide (bodyless (method req))) as [Hm | Hm].
  - left. rewrite parseBody_bodyless in Hpb by done.
    injection Hpb as <- <-. done.
  - right. destruct (Request_text req w) as [[t | ex] w1] eqn:Ht.
    + left. rewrite (parseBody_read req w w1 t Hm Ht) in Hpb.
      injection Hpb as <- <-. eauto.
    + right. rewrite (parseBody_read_fails req w w1 ex Hm Ht) in Hpb.
      injection Hpb as <- <-. eauto.
Qed.

(** What [request.text()] does to the world. *)
Lemma Request_text_world (req : Request) (w : World) :
  snd (Request_text req w)
  = afterRead (bodyUsed w || match body req with NoBody => false | _ => true end) w.
Proof.
  unfold Request_text, afterRead.
  destruct (bodyUsed w) eqn:Hu; [done |].
  by destruct (body req).
Qed.

Lemma Request_text_throws (req : Request) (w : World) :
  bodyUsed w = true \/ body req = BodyError ->
  exists ex, Request_text req w = (Throw ex, afterRead true w).
Proof.
  unfold Request_text, afterRead.
  intros [Hu | Hb].
  - rewrite Hu. eauto.
  - rewrite Hb. destruct (bodyUsed w); eauto.
Qed.

Lemma parseBody_read_fails_used `{Runtime} (req : Request) (w : World) :
  ~ bodyless (method req) ->
  bodyUsed w = true ->
  parseBody req w = (Normal nullBody, afterRead true w).
Proof.
  intros Hm Hu.
  destruct (Request_text_throws req w (or_introl Hu)) as [ex Hex].
  by rewrite (parseBody_read_fails req w _ ex Hm Hex).
Qed.

Lemma classify_empty `{Runtime} (ct : option string) : classify ct "" = nullBody.
Proof. reflexivity. Qed.

(** A key read back from an object filled from the empty object: it is
    not ["__proto__"], and its value is the one of the last pair with
    that key. *)
Lemma obj_assign_all_Some (pairs : list (string * string)) (k v : string) :
  obj_assign_all pairs ∅ !! k = Some v
  <-> k <> "__proto__" /\ lastValue k pairs = Some v.
Proof.
  split.
  - intros Hk.
    assert (Hne : k <> "__proto__").
    { intros ->. by rewrite obj_assign_all_proto in Hk. }
    split; [done |].
    rewrite obj_assign_all_lookup in Hk by done.
    by destruct (lastValue k pairs).
  - intros [Hne Hlast]. rewrite obj_assign_all_lookup by done. by rewrite Hlast.
Qed.

Lemma lastValue_elem_of (pairs : list (string * string)) (k v : string) :
  lastValue k pairs = Some v -> (k, v) ∈ pairs.
Proof.
  unfold lastValue. intros Hl.
  destruct (last (filter (fun kv => fst kv = k) pairs)) as [[k' v'] |] eqn:Hlast;
    [| discriminate].
  injection Hl as ->.
  apply last_Some_elem_of, list_elem_of_filter in Hlast as [Hk Hin].
  simpl in Hk. by subst.
Qed.

(** A non-null [parsed] comes with a content-type header and a [raw]
    text, for a method that is read. *)
Lemma parsed_needs_header `{Runtime}
  (req : Request) (w w' : World) (pb : ParsedBody) :
  parseBody req w = (Normal pb, w') ->
  parsed pb <> Null ->
  ~ bodyless (method req)
  /\ exists ct t,
       Headers_get (headers req) "content-type" = Some ct /\ raw pb = Some t.
Proof.
  intros Hpb Hparsed.
  apply parseBody_cases in Hpb
    as [(_ & -> & _) | [(Hm & t & Ht & ->) | (_ & -> & _)]]; try done.
  split; [done |]. unfold classify in *.
  destruct (Str.isEmpty t); [done |].
  destruct (Headers_get (headers req) "content-type") as [ct |]; [| done].
  exists ct, t. split; [done |]. simpl.
  repeat (destruct (Str.includes ct _)); done.
Qed.

(** ** [parseBody] *)

(** X1. When the method is not GET, HEAD or OPTIONS and [request.text()]
    rejects, because the body stream was already consumed or because the
    stream fails, [parseBody] swallows the rejection: it returns
    [{parsed: null, raw: null}], after the one read attempt. *)
Theorem X1_read_failure_is_swallowed `{Runtime} (req : Request) (w : World) :
  ~ bodyless (method req) ->
  bodyUsed w = true \/ body req = BodyError ->
  parseBody req w
    = (Normal {| parsed := Null; raw := None |}, afterRead true w).
Proof.
  intros Hm Hfail.
  destruct (Request_text_throws req w Hfail) as [ex Hex].
  by rewrite (parseBody_read_fails req w _ ex Hm Hex).
Qed.

Lemma X1_read_failure_is_swallowed_witness :
  ~ bodyless (method postJson)
  /\ (bodyUsed (afterRead true world0) = true \/ body postJson = BodyError)
  /\ parseBody postJson (afterRead true world0)
       = (Normal {| parsed := Null; raw := None |},
          afterRead true (afterRead true world0)).
Proof.
  assert (Hm : ~ bodyless (method postJson)).
  { intros [Hm | [Hm | Hm]]; discriminate Hm. }
  assert (Hu : bodyUsed (afterRead true world0) = true \/ body postJson = BodyError)
    by (left; reflexivity).
  split; [exact Hm |]. split; [exact Hu |].
  exact (X1_read_failure_is_swallowed postJson (afterRead true world0) Hm Hu).
Defined.

(** X2. When the method is not GET, HEAD or OPTIONS, the body reads as a
    non-empty text [t], and the content-type header is absent or contains
    neither ["application/json"] nor
    ["application/x-www-form-urlencoded"] (as written: the test is
    case-sensitive), no parse is attempted: [parsed] is null and [raw] is
    [t]. *)
Theorem X2_other_content_types_keep_raw `{Runtime}
  (req : Request) (w w' : World) (t : string) :
  ~ bodyless (method req) ->
  Request_text req w = (Normal t, w') ->
  t <> "" ->
  (forall ct, Headers_get (headers req) "content-type" = Some ct ->
     ~ contains ct "application/json"
     /\ ~ contains ct "application/x-www-form-urlencoded") ->
  parseBody req w = (Normal {| parsed := Null; raw := Some t |}, w').
Proof.
  intros Hm Ht Hne Hct.
  rewrite (parseBody_read req w w' t Hm Ht). unfold classify.
  rewrite (isEmpty_false t Hne).
  destruct (Headers_get (headers req) "content-type") as [ct |]; [| done].
  destruct (Hct ct eq_refl) as [Hj Hf].
  apply includes_false in Hj, Hf. simpl. by rewrite Hj, Hf.
Qed.

Lemma X2_other_content_types_keep_raw_witness :
  ~ bodyless (method postUpperCaseType)
  /\ Request_text postUpperCaseType world0 = (Normal "[1, 2]", afterRead true world0)
  /\ "[1, 2]" <> ""
  /\ Headers_get (headers postUpperCaseType) "content-type" = Some "Application/JSON"
  /\ ~ contains "Application/JSON" "application/json"
  /\ ~ contains "Application/JSON" "application/x-www-form-urlencoded"
  /\ parseBody postUpperCaseType world0
       = (Normal {| parsed := Null; raw := Some "[1, 2]" |}, afterRead true world0).
Proof.
  assert (Hm : ~ bodyless (method postUpperCaseType)).
  { intros [Hm | [Hm | Hm]]; discriminate Hm. }
  assert (Hne : "[1, 2]" <> "") by discriminate.
  assert (Hj : ~ contains "Application/JSON" "application/json")
    by (by apply includes_false).
  assert (Hf : ~ contains "Application/JSON" "application/x-www-form-urlencoded")
    by (by apply includes_false).
  repeat (split; [first [exact Hm | exact Hne | exact Hj | exact Hf | reflexivity] |]).
  apply (X2_other_content_types_keep_raw postUpperCaseType world0 _ _ Hm eq_refl Hne).
  intros ct [= <-]. by split.
Defined.

(** X3. In every result of [parseBody], [raw] is never the empty string,
    and when it is not null it is exactly the text that [request.text()]
    delivered, for a method other than GET, HEAD and OPTIONS. *)
Theorem X3_raw_is_the_text_read `{Runtime}
  (req : Request) (w w' : World) (pb : ParsedBody) :
  parseBody req w = (Normal pb, w') ->
  raw pb <> Some ""
  /\ forall t, raw pb = Some t ->
       ~ bodyless (method req) /\ Request_text req w = (Normal t, w').
Proof.
  intros Hpb.
  assert (Hraw : forall ct t, raw (classify ct t) = None
                              \/ (raw (classify ct t) = Some t /\ t <> "")).
  { intros ct t. unfold classify. destruct t as [| c t]; [by left |].
    simpl Str.isEmpty. cbv iota.
    repeat (destruct (from_option _ false ct)); right; by split. }
  apply parseBody_cases in Hpb
    as [(_ & -> & _) | [(Hm & t & Ht & ->) | (_ & -> & _)]]; try done.
  destruct (Hraw (Headers_get (headers req) "content-type") t)
    as [Hnone | [Hsome Hne]].
  - rewrite Hnone. done.
  - rewrite Hsome. split; [congruence |]. by intros t' [= <-].
Qed.

Lemma X3_raw_is_the_text_read_witness :
  parseBody postPlain world0
    = (Normal {| parsed := Null; raw := Some "Hello World" |}, afterRead true world0)
  /\ Some "Hello World" <> Some ""
  /\ ~ bodyless (method postPlain)
  /\ Request_text postPlain world0 = (Normal "Hello World", afterRead true world0).
Proof.
  assert (Hpb : parseBody postPlain world0
                = (Normal {| parsed := Null; raw := Some "Hello World" |},
                   afterRead true world0)) by (vm_compute; reflexivity).
  destruct (X3_raw_is_the_text_read postPlain world0 _ _ Hpb) as [Hne Hall].
  split; [exact Hpb |]. split; [exact Hne |]. exact (Hall "Hello World" eq_refl).
Defined.

(** X4. Whenever [parseBody] returns a non-null [parsed], the method is
    not GET, HEAD or OPTIONS, the content-type header is present, [raw]
    is the non-empty body text [t], and one of two things happened:
    the content type contains ["application/json"] and [parsed] is the
    JSON value of [t]; or it does not, it contains
    ["application/x-www-form-urlencoded"], and [parsed] is a string
    record whose entries are exactly, for each key other than
    ["__proto__"] among the pairs decoded from [t], the value of the last
    pair with that key. *)
Theorem X4_parsed_needs_content_type `{Runtime}
  (req : Request) (w w' : World) (pb : ParsedBody) :
  parseBody req w = (Normal pb, w') ->
  parsed pb <> Null ->
  ~ bodyless (method req)
  /\ exists ct t,
       Headers_get (headers req) "content-type" = Some ct
       /\ raw pb = Some t
       /\ t <> ""
       /\ ((contains ct "application/json" /\ JSON_parse t = Some (parsed pb))
           \/ (~ contains ct "application/json"
               /\ contains ct "application/x-www-form-urlencoded"
               /\ exists m : gmap string string,
                    parsed pb = Rec m
                    /\ forall k v,
                         m !! k = Some v
                         <-> k <> "__proto__"
                             /\ lastValue k (URLSearchParams_new t) = Some v)).
Proof.
  intros Hpb Hparsed.
  apply parseBody_cases in Hpb
    as [(_ & -> & _) | [(Hm & t & Ht & ->) | (_ & -> & _)]]; try done.
  split; [done |].
  unfold classify in *.
  destruct t as [| c t]; [done |].
  simpl Str.isEmpty in *. cbv iota in *.
  destruct (Headers_get (headers req) "content-type") as [ct |]; [| done].
  exists ct, (String c t). simpl from_option in *.
  destruct (Str.includes ct "application/json") eqn:Hj.
  - split; [done |]. split; [done |]. split; [done |]. left.
    apply includes_spec in Hj. split; [done |].
    simpl in Hparsed. by destruct (JSON_parse (String c t)).
  - destruct (Str.includes ct "application/x-www-form-urlencoded") eqn:Hf; [| done].
    split; [done |]. split; [done |]. split; [done |]. right.
    apply includes_false in Hj. apply includes_spec in Hf.
    split; [done |]. split; [done |].
    eexists. split; [reflexivity |].
    intros k v. apply obj_assign_all_Some.
Qed.

Lemma X4_parsed_needs_content_type_witness :
  parseBody postForm world0
    = (Normal {| parsed := Rec {[ "name" := "test"; "value" := "123" ]};
                 raw := Some "name=test&value=123" |}, afterRead true world0)
  /\ Rec {[ "name" := "test"; "value" := "123" ]} <> Null
  /\ ~ bodyless (method postForm)
  /\ exists ct t,
       Headers_get (headers postForm) "content-type" = Some ct
       /\ Some "name=test&value=123" = Some t
       /\ t <> ""
       /\ ((contains ct "application/json"
            /\ JSON_parse t = Some (Rec {[ "name" := "test"; "value" := "123" ]}))
           \/ (~ contains ct "application/json"
               /\ contains ct "application/x-www-form-urlencoded"
               /\ exists m : gmap string string,
                    Rec {[ "name" := "test"; "value" := "123" ]} = Rec m
                    /\ forall k v,
                         m !! k = Some v
                         <-> k <> "__proto__"
                             /\ lastValue k (URLSearchParams_new t) = Some v)).
Proof.
  assert (Hpb : parseBody postForm world0
                = (Normal {| parsed := Rec {[ "name" := "test"; "value" := "123" ]};
                             raw := Some "name=test&value=123" |},
                   afterRead true world0)) by (vm_compute; reflexivity).
  assert (Hne : Rec {[ "name" := "test"; "value" := "123" ]} <> Null) by discriminate.
  split; [exact Hpb |]. split; [exact Hne |].
  exact (X4_parsed_needs_content_type postForm world0 _ _ Hpb Hne).
Defined.

(** X5. The body can be parsed only once: whatever the first call of
    [parseBody] on a request returned, a second call on the same request
    returns [{parsed: null, raw: null}], because the first read consumed
    the body stream. The same holds of two snapshots built for one
    request: the second has [body] and [bodyRaw] null. *)
Theorem X5_body_is_parsed_once `{Runtime}
  (req : Request) (srv : Server) (w : World) :
  fst (parseBody req (snd (parseBody req w)))
    = Normal {| parsed := Null; raw := None |}
  /\ forall e1 w1 e2 w2,
       createEchoResponse req srv w = (Normal e1, w1) ->
       createEchoResponse req srv w1 = (Normal e2, w2) ->
       er_body (request e2) = Null /\ er_bodyRaw (request e2) = None.
Proof.
  assert (Hsecond : forall pb1 w1, parseBody req w = (Normal pb1, w1) ->
            fst (parseBody req w1) = Normal nullBody).
  { intros pb1 w1 Hpb1.
    destruct (decide (bodyless (method req))) as [Hm | Hm];
      [by rewrite parseBody_bodyless |].
    assert (Hw1 : w1 = snd (Request_text req w)).
    { apply parseBody_cases in Hpb1
        as [(? & _) | [(_ & t & Ht & _) | (_ & _ & ex & Ht)]];
        [done | by rewrite Ht | by rewrite Ht]. }
    rewrite Request_text_world in Hw1.
    destruct (bodyUsed w1) eqn:Hu.
    - by rewrite (parseBody_read_fails_used req w1 Hm Hu).
    - assert (Hb : body req = NoBody).
      { subst w1. simpl in Hu. apply orb_false_iff in Hu as [_ Hu].
        by destruct (body req). }
      assert (Ht : Request_text req w1 = (Normal "", afterRead false w1)).
      { unfold Request_text, afterRead. by rewrite Hu, Hb. }
      by rewrite (parseBody_read req w1 _ "" Hm Ht). }
  split.
  - destruct (parseBody_returns req w) as (pb1 & w1 & Hpb1).
    rewrite Hpb1. by apply (Hsecond pb1).
  - intros e1 w1 e2 w2 He1 He2.
    apply createEchoResponse_inv in He1 as (_ & pb1 & _ & Hpb1 & _).
    apply createEchoResponse_inv in He2 as (_ & pb2 & _ & Hpb2 & Hb & Hr & _).
    apply Hsecond in Hpb1. rewrite Hpb2 in Hpb1. injection Hpb1 as ->.
    by rewrite Hb, Hr.
Qed.

Lemma X5_body_is_parsed_once_witness :
  exists e1 w1 e2 w2,
    createEchoResponse postJson server0 world0 = (Normal e1, w1)
    /\ createEchoResponse postJson server0 w1 = (Normal e2, w2)
    /\ er_bodyRaw (request e1) = Some (json "{'name':'test','value':123}")
    /\ er_body (request e2) = Null
    /\ er_bodyRaw (request e2) = None.
Proof.
  destruct (createEchoResponse postJson server0 world0) as [[e1 | ex] w1] eqn:He1;
    [| vm_compute in He1; discriminate He1].
  destruct (createEchoResponse postJson server0 w1) as [[e2 | ex] w2] eqn:He2.
  - exists e1, w1, e2, w2. split; [reflexivity |]. split; [exact He2 |].
    split; [vm_compute in He1; by injection He1 as <- <- |].
    exact (proj2 (X5_body_is_parsed_once postJson server0 world0) e1 w1 e2 w2 He1 He2).
  - apply createEchoResponse_throws in He2. vm_compute in He2. discriminate He2.
Defined.

(** X6. [parseBody] looks at nothing but the method, the value of the
    content-type header and the body: two requests that agree on these
    get the same result, whatever their URLs and other headers. *)
Theorem X6_parseBody_reads_method_type_body `{Runtime}
  (req1 req2 : Request) (w : World) :
  method req1 = method req2 ->
  Headers_get (headers req1) "content-type"
    = Headers_get (headers req2) "content-type" ->
  body req1 = body req2 ->
  parseBody req1 w = parseBody req2 w.
Proof.
  intros Hm Hct Hb. unfold parseBody. rewrite Hm, Hct.
  replace (Request_text req1) with (Request_text req2); [done |].
  unfold Request_text. by rewrite Hb.
Qed.

Lemma X6_parseBody_reads_method_type_body_witness :
  method postJson = method postJsonElsewhere
  /\ Headers_get (headers postJson) "content-type"
       = Headers_get (headers postJsonElsewhere) "content-type"
  /\ body postJson = body postJsonElsewhere
  /\ url postJson <> url postJsonElsewhere
  /\ parseBody postJson world0 = parseBody postJsonElsewhere world0.
Proof.
  split; [reflexivity |]. split; [reflexivity |]. split; [reflexivity |].
  split; [discriminate |].
  exact (X6_parseBody_reads_method_type_body postJson postJsonElsewhere world0
           eq_refl eq_refl eq_refl).
Defined.

(** ** [parseQuery] *)

(** X7. The mapping returned by [parseQuery] holds exactly, for each key
    other than ["__proto__"] among the URL's parameters, the value of the
    last parameter with that key: no other key appears, and
    ["__proto__"] never does. For a query [k1=v1&k2=v2&...] the parameters
    are the pairs [(ki, vi)], percent-decoded, in order; an empty query
    gives the empty mapping. *)
Theorem X7_parseQuery_entries (u : URL) :
  (forall k v,
     parseQuery u !! k = Some v
     <-> k <> "__proto__" /\ lastValue k (searchParams u) = Some v)
  /\ (forall pairs,
        Forall plainPair pairs ->
        query u = formEncode pairs ->
        forall k v,
          parseQuery u !! k = Some v
          <-> k <> "__proto__" /\ lastValue k (decodePairs pairs) = Some v)
  /\ (query u = "" -> parseQuery u = ∅).
Proof.
  split; [intros k v; apply obj_assign_all_Some |].
  split; [| apply parseQuery_empty].
  intros pairs Hpairs Hq k v.
  unfold parseQuery, searchParams. rewrite Hq.
  rewrite (urlencoded_parse_formEncode pairs Hpairs).
  apply obj_assign_all_Some.
Qed.

Lemma X7_parseQuery_entries_witness :
  Forall plainPair [("a", "1"); ("b", "x%20y"); ("a", "2")]
  /\ query queryRepeated = formEncode [("a", "1"); ("b", "x%20y"); ("a", "2")]
  /\ parseQuery queryRepeated !! "a" = Some "2"
  /\ parseQuery queryRepeated !! "b" = Some "x y"
  /\ parseQuery queryRepeated !! "c" = None.
Proof.
  assert (Hp : Forall plainPair [("a", "1"); ("b", "x%20y"); ("a", "2")]).
  { repeat constructor; discriminate. }
  assert (Hq : query queryRepeated
               = formEncode [("a", "1"); ("b", "x%20y"); ("a", "2")])
    by reflexivity.
  pose proof (proj1 (proj2 (X7_parseQuery_entries queryRepeated)) _ Hp Hq) as Hall.
  split; [exact Hp |]. split; [exact Hq |].
  split; [apply Hall; split; [discriminate | reflexivity] |].
  split; [apply Hall; split; [discriminate | reflexivity] |].
  destruct (parseQuery queryRepeated !! "c") as [v |] eqn:Hc; [| reflexivity].
  apply Hall in Hc as [_ Hc]. discriminate Hc.
Defined.

(** ** [parseHeaders] *)

Lemma lower_ascii_idemp (c : ascii) :
  Str.lower_ascii (Str.lower_ascii c) = Str.lower_ascii c.
Proof. destruct c as [[] [] [] [] [] [] [] []]; reflexivity. Qed.

Lemma lower_idemp (s : string) : Str.lower (Str.lower s) = Str.lower s.
Proof.
  induction s as [| c s IH]; [reflexivity |].
  simpl. by rewrite lower_ascii_idemp, IH.
Qed.

Lemma Headers_values_app (h1 h2 : Headers) (name : string) :
  Headers_values (h1 ++ h2)%list name
  = (Headers_values h1 name ++ Headers_values h2 name)%list.
Proof. unfold Headers_values. by rewrite List.filter_app, List.map_app. Qed.

Lemma Headers_values_single (n v name : string) :
  Headers_values [(n, v)] name
  = if String.eqb (Str.lower n) (Str.lower name) then [v] else [].
Proof.
  unfold Headers_values. simpl.
  by destruct (String.eqb (Str.lower n) (Str.lower name)).
Qed.

Lemma Headers_values_lower (h : Headers) (name : string) :
  Headers_values h (Str.lower name) = Headers_values h name.
Proof. unfold Headers_values. by rewrite lower_idemp. Qed.

(** The entry that [forEach] visits last for the key [k], when [k] is
    lower-case and not [set-cookie]: the joined values of the whole
    list [all], provided some header of [h] has that name. *)
Lemma lastValue_entries (all h : Headers) (k : string) :
  Str.lower k = k ->
  k <> "set-cookie" ->
  lastValue k
    (List.map
       (fun nv =>
          let key := Str.lower (fst nv) in
          if String.eqb key "set-cookie" then (key, snd nv)
          else (key, Str.join ", " (Headers_values all key)))
       h)
  = match Headers_values h k with
    | [] => None
    | _ => Some (Str.join ", " (Headers_values all k))
    end.
Proof.
  intros Hk Hsc.
  set (f := fun nv : string * string =>
              let key := Str.lower (fst nv) in
              if String.eqb key "set-cookie" then (key, snd nv)
              else (key, Str.join ", " (Headers_values all key))).
  induction h as [| [n v] h IH] using rev_ind; [reflexivity |].
  rewrite List.map_app, Headers_values_app, Headers_values_single, Hk.
  unfold lastValue in *. rewrite filter_app.
  change (List.map f [(n, v)]) with [f (n, v)].
  destruct (String.eqb_spec (Str.lower n) k) as [Hn | Hn].
  - assert (Hf : f (n, v) = (k, Str.join ", " (Headers_values all k))).
    { unfold f. simpl. rewrite Hn.
      by destruct (String.eqb_spec k "set-cookie"). }
    rewrite Hf, filter_cons_True by done.
    rewrite filter_nil, last_snoc. simpl.
    by destruct (Headers_values h k).
  - assert (Hf : fst (f (n, v)) <> k).
    { unfold f. simpl. by destruct (String.eqb (Str.lower n) "set-cookie"). }
    rewrite filter_cons_False by done.
    rewrite filter_nil, !app_nil_r. apply IH.
Qed.

Lemma lastValue_Headers_entries (h : Headers) (k : string) :
  Str.lower k = k ->
  k <> "set-cookie" ->
  lastValue k (Headers_entries h)
  = match Headers_values h k with
    | [] => None
    | _ => Some (Str.join ", " (Headers_values h k))
    end.
Proof. apply lastValue_entries. Qed.

(** Under a lower-case key the mapping holds what [headers.get] returns
    for that key. *)
Lemma parseHeaders_lookup_lower (h : Headers) (k : string) :
  Str.lower k = k ->
  k <> "__proto__" ->
  k <> "set-cookie" ->
  parseHeaders h !! k = Headers_get h k.
Proof.
  intros Hk Hproto Hsc. unfold parseHeaders, Headers_get.
  rewrite obj_assign_all_lookup by done.
  rewrite (lastValue_Headers_entries h k Hk Hsc).
  by destruct (Headers_values h k).
Qed.

(** X8. The mapping returned by [parseHeaders] agrees with
    [headers.get]: for every header name, looked up under its lower-cased
    form, it holds what [headers.get(name)] returns (the values of all
    headers of that name, whatever their case, joined by [", "]), and
    nothing when there is no such header. The names ["__proto__"] and
    ["set-cookie"] are excepted. *)
Theorem X8_parseHeaders_agrees_with_get (h : Headers) (name : string) :
  Str.lower name <> "__proto__" ->
  Str.lower name <> "set-cookie" ->
  parseHeaders h !! Str.lower name = Headers_get h name.
Proof.
  intros Hproto Hsc.
  rewrite (parseHeaders_lookup_lower h _ (lower_idemp name) Hproto Hsc).
  unfold Headers_get. by rewrite Headers_values_lower.
Qed.

Lemma X8_parseHeaders_agrees_with_get_witness :
  Str.lower "Accept" <> "__proto__"
  /\ Str.lower "Accept" <> "set-cookie"
  /\ Headers_get headersRepeated "Accept" = Some "text/html, application/json"
  /\ parseHeaders headersRepeated !! "accept" = Some "text/html, application/json".
Proof.
  assert (H1 : Str.lower "Accept" <> "__proto__") by discriminate.
  assert (H2 : Str.lower "Accept" <> "set-cookie") by discriminate.
  split; [exact H1 |]. split; [exact H2 |]. split; [reflexivity |].
  exact (X8_parseHeaders_agrees_with_get headersRepeated "Accept" H1 H2).
Defined.

(** X9. Every key of the mapping returned by [parseHeaders] is the
    lower-cased name of a header of the request, so it is lower-case
    itself, and it is never ["__proto__"] (in particular a request
    without headers gets the empty mapping). *)
Theorem X9_parseHeaders_keys (h : Headers) (k v : string) :
  parseHeaders h !! k = Some v ->
  k <> "__proto__"
  /\ Str.lower k = k
  /\ exists n v', (n, v') ∈ h /\ k = Str.lower n.
Proof.
  unfold parseHeaders. intros Hk.
  apply obj_assign_all_Some in Hk as [Hne Hlast].
  split; [done |].
  apply lastValue_elem_of in Hlast. unfold Headers_entries in Hlast.
  apply list_elem_of_In, List.in_map_iff in Hlast as ([n v'] & Heq & Hin).
  assert (Hkn : k = Str.lower n).
  { simpl in Heq. destruct (String.eqb (Str.lower n) "set-cookie");
      by injection Heq as <- _. }
  split; [by rewrite Hkn, lower_idemp |].
  exists n, v'. split; [by apply list_elem_of_In | done].
Qed.

Lemma X9_parseHeaders_keys_witness :
  parseHeaders headersRepeated !! "accept" = Some "text/html, application/json"
  /\ "accept" <> "__proto__"
  /\ Str.lower "accept" = "accept"
  /\ exists n v', (n, v') ∈ headersRepeated /\ "accept" = Str.lower n.
Proof.
  assert (Hk : parseHeaders headersRepeated !! "accept"
               = Some "text/html, application/json") by (vm_compute; reflexivity).
  split; [exact Hk |].
  exact (X9_parseHeaders_keys headersRepeated "accept" _ Hk).
Defined.

(** ** [createEchoResponse] and [handleRequest] *)

(** The fields of a snapshot that are read off the request, the headers
    and the server context. *)
Lemma createEchoResponse_fields `{Runtime}
  (req : Request) (srv : Server) (w w' : World) (e : EchoResponse) :
  createEchoResponse req srv w = (Normal e, w') ->
  er_method (request e) = method req
  /\ er_url (request e) = url req
  /\ er_headers (request e) = parseHeaders (headers req)
  /\ er_contentType (request e) = Headers_get (headers req) "content-type"
  /\ userAgent (client e) = Headers_get (headers req) "user-agent"
  /\ ip (client e) = option_map address (requestIP srv req)
  /\ timestamp e = toISOString (now w').
Proof.
  unfold createEchoResponse, bind, lift, Date_now_iso, ret, throw.
  destruct (URL_parse (url req)) as [u |]; [| discriminate].
  destruct (parseBody req w) as [[pb | ex] w1] eqn:Hpb; [| discriminate].
  intros [= <- <-]. simpl. repeat split; reflexivity.
Qed.

(** The world after [parseBody]: untouched for GET, HEAD and OPTIONS,
    otherwise the world after one [request.text()]. *)
Lemma parseBody_world `{Runtime} (req : Request) (w : World) :
  snd (parseBody req w)
  = if decide (bodyless (method req)) then w else snd (Request_text req w).
Proof.
  destruct (decide (bodyless (method req))) as [Hm | Hm].
  - by rewrite parseBody_bodyless.
  - destruct (Request_text req w) as [[t | ex] w1] eqn:Ht.
    + by rewrite (parseBody_read req w w1 t Hm Ht).
    + by rewrite (parseBody_read_fails req w w1 ex Hm Ht).
Qed.

Lemma handleRequest_world `{Runtime} (req : Request) (srv : Server) (w : World) :
  snd (handleRequest req srv w)
  = match URL_parse (url req) with
    | Some _ => snd (parseBody req w)
    | None => w
    end.
Proof.
  unfold handleRequest, createEchoResponse, bind, lift, Date_now_iso, ret, throw.
  destruct (URL_parse (url req)) as [u |]; [| reflexivity].
  destruct (parseBody_returns req w) as (pb & w1 & Hpb).
  by rewrite Hpb.
Qed.

(** X10. A snapshot whose [body] is not null was built for a request
    whose method is not GET, HEAD or OPTIONS, and its [contentType] and
    [bodyRaw] are not null either. *)
Theorem X10_body_implies_contentType `{Runtime}
  (req : Request) (srv : Server) (w w' : World) (e : EchoResponse) :
  createEchoResponse req srv w = (Normal e, w') ->
  er_body (request e) <> Null ->
  ~ bodyless (er_method (request e))
  /\ er_contentType (request e) <> None
  /\ er_bodyRaw (request e) <> None.
Proof.
  intros He Hbody.
  pose proof (createEchoResponse_fields req srv w w' e He)
    as (Hm & _ & _ & Hct & _).
  apply createEchoResponse_inv in He as (_ & pb & _ & Hpb & Hb & Hr & _).
  rewrite Hb in Hbody.
  destruct (parsed_needs_header req w w' pb Hpb Hbody)
    as (Hmeth & ct & t & Hhdr & Hraw).
  rewrite Hm, Hct, Hr, Hhdr, Hraw. done.
Qed.

Lemma X10_body_implies_contentType_witness :
  exists e w',
    createEchoResponse postForm server0 world0 = (Normal e, w')
    /\ er_body (request e) = Rec {[ "name" := "test"; "value" := "123" ]}
    /\ ~ bodyless (er_method (request e))
    /\ er_contentType (request e) <> None
    /\ er_bodyRaw (request e) <> None.
Proof.
  destruct (createEchoResponse postForm server0 world0) as [[e | ex] w'] eqn:He;
    [| vm_compute in He; discriminate He].
  assert (Hb : er_body (request e) = Rec {[ "name" := "test"; "value" := "123" ]}).
  { vm_compute in He. by injection He as <- <-. }
  exists e, w'. split; [reflexivity |]. split; [exact Hb |].
  apply (X10_body_implies_contentType postForm server0 world0 w' e He).
  rewrite Hb. discriminate.
Defined.

(** X11. In every snapshot the separate fields agree with the header
    mapping: [contentType] is [headers["content-type"]], [client.userAgent]
    is [headers["user-agent"]], and [contentLength] is null exactly when
    [headers["content-length"]] is missing or empty. *)
Theorem X11_fields_agree_with_headers `{Runtime}
  (req : Request) (srv : Server) (w w' : World) (e : EchoResponse) :
  createEchoResponse req srv w = (Normal e, w') ->
  er_contentType (request e) = er_headers (request e) !! "content-type"
  /\ userAgent (client e) = er_headers (request e) !! "user-agent"
  /\ (er_contentLength (request e) = None
      <-> er_headers (request e) !! "content-length" = None
          \/ er_headers (request e) !! "content-length" = Some "").
Proof.
  intros He.
  pose proof (createEchoResponse_fields req srv w w' e He)
    as (_ & _ & Hh & Hct & Hua & _).
  apply createEchoResponse_inv in He
    as (_ & _ & _ & _ & _ & _ & _ & _ & _ & _ & Hcl).
  rewrite Hh, Hct, Hua, Hcl.
  rewrite !parseHeaders_lookup_lower by (reflexivity || discriminate).
  split; [done |]. split; [done |].
  destruct (Headers_get (headers req) "content-length") as [v |].
  - destruct v as [| c v]; simpl.
    + split; [by right | done].
    + split; [done | intros [? | ?]; done].
  - split; [by left | done].
Qed.

Lemma X11_fields_agree_with_headers_witness :
  exists e w',
    createEchoResponse readmePost server0 world0 = (Normal e, w')
    /\ er_contentType (request e) = Some "application/json"
    /\ er_headers (request e) !! "content-type" = Some "application/json"
    /\ userAgent (client e) = er_headers (request e) !! "user-agent"
    /\ er_contentLength (request e) <> None.
Proof.
  destruct (createEchoResponse readmePost server0 world0) as [[e | ex] w'] eqn:He;
    [| vm_compute in He; discriminate He].
  destruct (X11_fields_agree_with_headers readmePost server0 world0 w' e He)
    as (Hct & Hua & Hcl).
  assert (Hc : er_contentType (request e) = Some "application/json").
  { vm_compute in He. by injection He as <- <-. }
  exists e, w'. split; [reflexivity |]. split; [exact Hc |].
  split; [by rewrite <- Hct |]. split; [exact Hua |].
  intros Hnone. apply Hcl in Hnone.
  vm_compute in He. injection He as <- <-.
  destruct Hnone as [Hn | Hn]; vm_compute in Hn; discriminate Hn.
Defined.

(** X12. What one call of [handleRequest] does to the request's body
    stream: a consumed stream stays consumed, and [request.text()] is
    called exactly once when the URL parses and the method is not GET,
    HEAD or OPTIONS, and not at all otherwise. *)
Theorem X12_handleRequest_reads_body_once `{Runtime}
  (req : Request) (srv : Server) (w : World) :
  (bodyUsed w = true -> bodyUsed (snd (handleRequest req srv w)) = true)
  /\ textCalls (snd (handleRequest req srv w))
     = match URL_parse (url req) with
       | Some _ =>
           if decide (bodyless (method req)) then textCalls w
           else S (textCalls w)
       | None => textCalls w
       end.
Proof.
  rewrite handleRequest_world.
  destruct (URL_parse (url req)) as [u |]; [| done].
  rewrite parseBody_world.
  destruct (decide (bodyless (method req))) as [Hm | Hm]; [done |].
  rewrite Request_text_world. unfold afterRead. simpl.
  split; [| done]. by intros ->.
Qed.

Lemma X12_handleRequest_reads_body_once_witness :
  bodyUsed (afterRead true world0) = true
  /\ bodyUsed (snd (handleRequest postJson server0 (afterRead true world0))) = true
  /\ textCalls (snd (handleRequest postJson server0 world0)) = 1%nat
  /\ textCalls (snd (handleRequest getWithBody server0 world0)) = 0%nat.
Proof.
  assert (Hu : bodyUsed (afterRead true world0) = true) by reflexivity.
  split; [exact Hu |].
  split;
    [exact (proj1 (X12_handleRequest_reads_body_once postJson server0
                     (afterRead true world0)) Hu) |].
  split; reflexivity.
Defined.

(** X13. [handleRequest] throws exactly when [new URL(request.url)]
    does: for a URL that does not parse it throws a [TypeError] before
    anything is read, leaving the world as it was; and whenever it throws,
    the URL did not parse and nothing was read. *)
Theorem X13_handleRequest_throws_on_bad_url `{Runtime}
  (req : Request) (srv : Server) (w : World) :
  (URL_parse (url req) = None ->
     exists msg, handleRequest req srv w = (Throw (TypeError msg), w))
  /\ (forall ex w', handleRequest req srv w = (Throw ex, w') ->
        URL_parse (url req) = None /\ w' = w).
Proof.
  split.
  - intros Hu. unfold handleRequest, createEchoResponse, bind, lift, throw.
    rewrite Hu. eauto.
  - intros ex w' Hthrow.
    pose proof (handleRequest_throws req srv w w' ex Hthrow) as Hu.
    split; [done |].
    pose proof (handleRequest_world req srv w) as Hw.
    rewrite Hthrow, Hu in Hw. done.
Qed.

Lemma X13_handleRequest_throws_on_bad_url_witness :
  URL_parse (url relativeUrlRequest) = None
  /\ exists msg,
       handleRequest relativeUrlRequest server0 world0
         = (Throw (TypeError msg), world0).
Proof.
  assert (Hu : URL_parse (url relativeUrlRequest) = None) by reflexivity.
  split; [exact Hu |].
  exact (proj1 (X13_handleRequest_throws_on_bad_url relativeUrlRequest server0 world0) Hu).
Defined.

(** ** The entry point *)

(** X14. The port of the entry point: [3000] when [PORT] is unset or
    empty; when the value starts with a base-10 integer, that integer if
    it is at most [2^53] in absolute value, and in general the double
    nearest to it; and [NaN], not the default, when [PORT] is set to a
    non-empty ASCII text that does not start with an integer. *)
Theorem X14_PORT (env : gmap string string) :
  (env !! "PORT" = None \/ env !! "PORT" = Some "" -> PORT env = Int 3000)
  /\ (forall s z, env !! "PORT" = Some s -> numeral s z -> Z.abs z <= 2 ^ 53 ->
        PORT env = Int z)
  /\ (forall s z, env !! "PORT" = Some s -> numeral s z ->
        nearestDouble z (PORT env))
  /\ (forall s, env !! "PORT" = Some s -> s <> "" -> isASCII s ->
        (forall z, ~ numeral s z) -> PORT env = NaN).
Proof.
  unfold PORT, orElse.
  assert (Hnonempty : forall s z, numeral s z -> Str.isEmpty s = false).
  { intros s z Hz. destruct s; [| done].
    destruct Hz as (ws & sg & ds & tail & Hv & _ & Hne & _).
    destruct ws, sg, ds; done. }
  split_and!.
  - by intros [-> | ->].
  - intros s z -> Hz Hb. rewrite (Hnonempty s z Hz).
    by apply parseInt10_exact.
  - intros s z -> Hz. rewrite (Hnonempty s z Hz), (parseInt10_numeral s z Hz).
    apply roundToDouble_nearest.
  - intros s -> Hne _ Hnum. rewrite (isEmpty_false s Hne).
    by apply parseInt10_NaN.
Qed.

Lemma X14_PORT_witness :
  ({[ "PORT" := "8080" ]} : gmap string string) !! "PORT" = Some "8080"
  /\ numeral "8080" 8080
  /\ Z.abs 8080 <= 2 ^ 53
  /\ PORT {[ "PORT" := "8080" ]} = Int 8080
  /\ PORT ∅ = Int 3000
  /\ isASCII "http"
  /\ PORT {[ "PORT" := "http" ]} = NaN.
Proof.
  assert (Hn : numeral "8080" 8080).
  { exists [], NoSign, [8; 0; 8; 0], "".
    split_and!; [reflexivity | constructor | discriminate | | exact I | reflexivity].
    repeat constructor; lia. }
  assert (Hb : Z.abs 8080 <= 2 ^ 53) by (intros Hgt; discriminate Hgt).
  assert (Ha : isASCII "http").
  { repeat constructor; apply N.leb_le; reflexivity. }
  split; [reflexivity |]. split; [exact Hn |]. split; [exact Hb |].
  split;
    [exact (proj1 (proj2 (X14_PORT {[ "PORT" := "8080" ]}))
              "8080" 8080 eq_refl Hn Hb) |].
  split; [exact (proj1 (X14_PORT ∅) (or_introl eq_refl)) |].
  split; [exact Ha |].
  assert (He : ({[ "PORT" := "http" ]} : gmap string string) !! "PORT"
               = Some "http") by reflexivity.
  apply (proj2 (proj2 (proj2 (X14_PORT {[ "PORT" := "http" ]}))) "http" He);
    [discriminate | exact Ha |].
  intros z Hz. apply parseInt10_numeral in Hz.
  by apply (roundToDouble_not_NaN z).
Defined.

(** X15. The hostname of the entry point is never empty: it is the value
    of [HOSTNAME] when that is set and not empty, and [0.0.0.0]
    otherwise. *)
Theorem X15_HOSTNAME (env : gmap string string) :
  HOSTNAME env <> ""
  /\ (forall s, env !! "HOSTNAME" = Some s -> s <> "" -> HOSTNAME env = s)
  /\ (env !! "HOSTNAME" = None \/ env !! "HOSTNAME" = Some "" ->
        HOSTNAME env = "0.0.0.0").
Proof.
  unfold HOSTNAME, orElse. split_and!.
  - destruct (env !! "HOSTNAME") as [[| c s] |]; done.
  - intros s -> Hne. by rewrite (isEmpty_false s Hne).
  - by intros [-> | ->].
Qed.

Lemma X15_HOSTNAME_witness :
  ({[ "HOSTNAME" := "127.0.0.1" ]} : gmap string string) !! "HOSTNAME"
    = Some "127.0.0.1"
  /\ "127.0.0.1" <> ""
  /\ HOSTNAME {[ "HOSTNAME" := "127.0.0.1" ]} = "127.0.0.1"
  /\ HOSTNAME {[ "HOSTNAME" := "" ]} = "0.0.0.0".
Proof.
  assert (Hne : "127.0.0.1" <> "") by discriminate.
  split; [reflexivity |]. split; [exact Hne |].
  split;
    [exact (proj1 (proj2 (X15_HOSTNAME {[ "HOSTNAME" := "127.0.0.1" ]}))
              "127.0.0.1" eq_refl Hne) |].
  exact (proj2 (proj2 (X15_HOSTNAME {[ "HOSTNAME" := "" ]})) (or_intror eq_refl)).
Defined.

(** ** Percent-encoded queries *)

Lemma without_percentEncode (d : ascii) (s : string) :
  d = "&"%char \/ d = "="%char -> without d (percentEncode s).
Proof.
  intros Hd. unfold without. induction s as [| c s IH]; [constructor |].
  simpl percentEncode.
  change (percentEncodeByte c ++ percentEncode s)
    with (String "%" (String (hexChar (Str.code c / 16))
            (String (hexChar (Str.code c mod 16)) (percentEncode s)))).
  rewrite !to_list_cons.
  repeat (apply Forall_cons; split); [| | | exact IH];
    destruct Hd as [-> | ->];
    try discriminate;
    destruct c as [[] [] [] [] [] [] [] []]; discriminate.
Qed.

Lemma decodePairs_encodePairs (pairs : list (string * string)) :
  Forall (fun kv => isASCII (fst kv) /\ isASCII (snd kv)) pairs ->
  decodePairs (encodePairs pairs) = pairs.
Proof.
  unfold decodePairs, encodePairs.
  induction 1 as [| [k v] pairs [Hk Hv] _ IH]; [reflexivity |].
  simpl List.map. simpl fst. simpl snd.
  rewrite !urlencoded_decode_percentEncode by done.
  f_equal. exact IH.
Qed.

Lemma plainPair_encodePairs (pairs : list (string * string)) :
  Forall plainPair (encodePairs pairs).
Proof.
  unfold encodePairs. apply Forall_forall. intros kv Hin.
  apply list_elem_of_In, List.in_map_iff in Hin as ([k v] & <- & _).
  repeat split; apply without_percentEncode; auto.
Qed.

(** X16. Percent-encoding survives the trip through [parseQuery]: when
    the query of a URL is [k1=v1&k2=v2&...] with every key and value
    percent-encoded byte by byte, and the keys and values are ASCII
    texts, the mapping holds, for each key other than ["__proto__"], the
    original (unencoded) value of the last pair with that key, and
    nothing else. *)
Theorem X16_parseQuery_percent_round_trip (u : URL)
  (pairs : list (string * string)) :
  Forall (fun kv => isASCII (fst kv) /\ isASCII (snd kv)) pairs ->
  query u = formEncode (encodePairs pairs) ->
  forall k v,
    parseQuery u !! k = Some v
    <-> k <> "__proto__" /\ lastValue k pairs = Some v.
Proof.
  intros Hascii Hq k v.
  unfold parseQuery, searchParams. rewrite Hq.
  rewrite (urlencoded_parse_formEncode _ (plainPair_encodePairs pairs)).
  fold (decodePairs (encodePairs pairs)).
  rewrite (decodePairs_encodePairs pairs Hascii).
  apply obj_assign_all_Some.
Qed.

Lemma X16_parseQuery_percent_round_trip_witness :
  Forall (fun kv => isASCII (fst kv) /\ isASCII (snd kv)) [("q", "a&b=c"); ("q", "x y")]
  /\ query queryEncoded = formEncode (encodePairs [("q", "a&b=c"); ("q", "x y")])
  /\ query queryEncoded = "%71=%61%26%62%3D%63&%71=%78%20%79"
  /\ parseQuery queryEncoded !! "q" = Some "x y".
Proof.
  assert (Ha : Forall (fun kv => isASCII (fst kv) /\ isASCII (snd kv))
                 [("q", "a&b=c"); ("q", "x y")]).
  { repeat constructor; apply N.leb_le; reflexivity. }
  split; [exact Ha |]. split; [reflexivity |]. split; [reflexivity |].
  apply (X16_parseQuery_percent_round_trip queryEncoded _ Ha eq_refl).
  split; [discriminate | reflexivity].
Defined.

(** X17. Whenever [new URL(request.url)] succeeds, [handleRequest]
    returns a response: it does not throw, the status is 200 and the
    headers are [Content-Type: application/json] and
    [X-Echo-Server: http-echo-server/1.0.0]. *)
Theorem X17_returns_200_when_url_parses `{Runtime} (req : Request) (srv : Server) (w : World) :
  wellFormed req ->
  exists resp w',
    handleRequest req srv w = (Normal resp, w')
    /\ status resp = 200
    /\ Headers_get (resp_headers resp) "Content-Type" = Some "application/json"
    /\ Headers_get (resp_headers resp) "X-Echo-Server"
         = Some "http-echo-server/1.0.0".
Proof.
  intros Hwf.
  destruct (createEchoResponse_returns req srv w Hwf) as (e & w' & He).
  unfold handleRequest, bind, ret. rewrite He.
  eexists _, w'. split; [reflexivity |]. by repeat split.
Qed.

Lemma X17_returns_200_when_url_parses_witness :
  wellFormed readmePost
  /\ exists resp w',
       handleRequest readmePost server0 world0 = (Normal resp, w')
       /\ status resp = 200
       /\ Headers_get (resp_headers resp) "Content-Type" = Some "application/json"
       /\ Headers_get (resp_headers resp) "X-Echo-Server"
            = Some "http-echo-server/1.0.0".
Proof.
  assert (Hwf : wellFormed readmePost) by (eexists; vm_compute; reflexivity).
  split; [exact Hwf |].
  exact (X17_returns_200_when_url_parses readmePost server0 world0 Hwf).
Defined.
